(** * fulldisk: the space-distribution and fast-allocation engine

    A shallow embedding of [fulldisk.py]: the platform allocation
    functions ([extend_file_size_linux], [adjust_file_size_windows],
    [fastwrite_on_windows], [fastwrite_on_linux]), the target enumeration
    ([walk_path]) and the distribution loop ([run]), followed by the
    properties of the specification that concern them. *)

From Stdlib Require Import ZArith List String Ascii Bool Lia Sorted.
Import ListNotations.
Open Scope string_scope.
Open Scope list_scope.
Open Scope Z_scope.

(** ** Platform allocation functions *)

Module Alloc.

(** The Python exception classes the allocation functions can meet.  Only
    [AttributeError] is ever caught inside them ([except AttributeError] in
    [extend_file_size_linux]); all of them derive from [Exception]. *)
Inductive exn : Type :=
| OSError
| FileNotFoundError
| AttributeError
| ValueError
| OverflowError.

(** The operating-system primitives the functions reach, with their
    arguments.  They serve both as the log of what a call requested and as
    the key under which the environment decides failures. *)
Inductive syscall : Type :=
| SysStat                                (* os.path.getsize *)
| SysOpenRW                              (* open(path, 'r+b') *)
| SysOpenW                               (* open(path, 'wb') *)
| SysSeek (offset : Z)                   (* f.seek(offset) *)
| SysWriteZero                           (* f.write(b'\0'); f.flush() *)
| SysTruncate (n : Z)                    (* f.truncate(n) *)
| SysFallocate (offset len : Z)          (* os.posix_fallocate(fd, offset, len) *)
| SysSetFilePointerEx (distance : Z)     (* kernel32.SetFilePointerEx(.., FILE_BEGIN) *)
| SysSetEndOfFile                        (* kernel32.SetEndOfFile *)
| SysSetFileValidData (len : Z).         (* kernel32.SetFileValidData *)

(** What the functions cannot control: whether the [os] module has
    [posix_fallocate] at all, which primitive calls the system refuses
    (no space, no permission, no privilege, an offset beyond what the
    file system holds), and, for a refused call that extends the file
    piece by piece, the size the file had reached when it failed. *)
Record env : Type := {
  has_posix_fallocate : bool;
  os_fail : syscall -> bool;
  os_reached : syscall -> Z
}.

(** The file at [file_path] ([None]: no such file, [Some n]: a file of
    apparent size [n]), the position of the handle opened on it, and the
    primitives requested so far. *)
Record fstate : Type := {
  file : option Z;
  pos : Z;
  trace : list syscall
}.

Inductive res (A : Type) : Type :=
| Ret (a : A) (s : fstate)
| Raise (e : exn) (s : fstate).
Arguments Ret {A} a s.
Arguments Raise {A} e s.

Definition io (A : Type) : Type := fstate -> res A.

Definition ret {A} (a : A) : io A := fun s => Ret a s.
Definition raise {A} (e : exn) : io A := fun s => Raise e s.
Definition bind {A B} (m : io A) (k : A -> io B) : io B :=
  fun s => match m s with
           | Ret a s' => k a s'
           | Raise e s' => Raise e s'
           end.
(** [try: m  except AttributeError: h]: any other exception passes. *)
Definition try_except_AttributeError {A} (m : io A) (h : io A) : io A :=
  fun s => match m s with
           | Ret a s' => Ret a s'
           | Raise AttributeError s' => h s'
           | Raise e s' => Raise e s'
           end.

Notation "x <- m ;; k" := (bind m (fun x => k))
  (at level 61, m at next level, right associativity).
Notation "m ;;; k" := (bind m (fun _ => k))
  (at level 61, right associativity).

Definition max_off : Z := 2 ^ 63 - 1.

(** [ctypes] integer types do no overflow checking: [LARGE_INTEGER(n)]
    ([c_longlong]) keeps the low 64 bits of [n], read as a signed number. *)
Definition LARGE_INTEGER (n : Z) : Z := (n + 2 ^ 63) mod 2 ^ 64 - 2 ^ 63.

Section Primitives.
Variable E : env.

Definition called (c : syscall) : io unit :=
  fun s => Ret tt {| file := file s; pos := pos s; trace := trace s ++ [c] |}.

Definition set_file (n : Z) : io unit :=
  fun s => Ret tt {| file := Some n; pos := pos s; trace := trace s |}.

Definition set_pos (p : Z) : io unit :=
  fun s => Ret tt {| file := file s; pos := p; trace := trace s |}.

Definition get_file : io (option Z) := fun s => Ret (file s) s.
Definition get_pos : io Z := fun s => Ret (pos s) s.

(** The size of the file the open handle refers to. *)
Definition cur_size : io Z :=
  f <- get_file ;; ret (match f with Some n => n | None => 0 end).

Definition refused (c : syscall) : io unit :=
  if os_fail E c then raise OSError else ret tt.

(** [os.path.getsize(file_path)] *)
Definition os_path_getsize : io Z :=
  called SysStat ;;;
  f <- get_file ;;
  match f with
  | None => raise FileNotFoundError
  | Some n => refused SysStat ;;; ret n
  end.

(** [open(file_path, 'r+b')]: the file must exist; it is left as it is. *)
Definition open_rb_plus : io unit :=
  called SysOpenRW ;;;
  f <- get_file ;;
  match f with
  | None => raise FileNotFoundError
  | Some _ => refused SysOpenRW ;;; set_pos 0
  end.

(** [open(file_path, 'wb')]: the file is created, or emptied. *)
Definition open_wb : io unit :=
  called SysOpenW ;;;
  refused SysOpenW ;;;
  set_file 0 ;;; set_pos 0.

(** [f.seek(offset)] on a binary file: a negative offset is refused by
    the system, one that does not fit an offset by Python, and any other
    one where the file system says so. *)
Definition f_seek (offset : Z) : io unit :=
  called (SysSeek offset) ;;;
  if offset <? 0 then raise OSError
  else if max_off <? offset then raise ValueError
  else refused (SysSeek offset) ;;; set_pos offset.

(** [f.write(b'\0'); f.flush()]: one byte at the current position. *)
Definition f_write_zero : io unit :=
  called SysWriteZero ;;;
  refused SysWriteZero ;;;
  n <- cur_size ;;
  p <- get_pos ;;
  set_file (Z.max n (p + 1)) ;;; set_pos (p + 1).

(** [f.truncate(n)] *)
Definition f_truncate (n : Z) : io unit :=
  called (SysTruncate n) ;;;
  if n <? 0 then raise OSError
  else if max_off <? n then raise ValueError
  else refused (SysTruncate n) ;;; set_file n.

(** [os.posix_fallocate(fd, offset, len)]: an [AttributeError] where the
    [os] module lacks it; [EINVAL] unless [0 <= offset] and [0 < len];
    otherwise the file covers at least [offset + len] bytes, or, when the
    system gives up on the way (no space left), whatever part of them it
    had reached. *)
Definition os_posix_fallocate (offset len : Z) : io unit :=
  if negb (has_posix_fallocate E) then raise AttributeError
  else
    called (SysFallocate offset len) ;;;
    if (max_off <? offset) || (max_off <? len) then raise OverflowError
    else if (offset <? 0) || (len <=? 0) then raise OSError
    else
      n <- cur_size ;;
      if os_fail E (SysFallocate offset len) then
        set_file (Z.max n (Z.min (offset + len)
                                 (os_reached E (SysFallocate offset len)))) ;;;
        raise OSError
      else set_file (Z.max n (offset + len)).

(** [kernel32.SetFilePointerEx(handle, distance, .., FILE_BEGIN)]: a BOOL. *)
Definition SetFilePointerEx (distance : Z) : io bool :=
  called (SysSetFilePointerEx distance) ;;;
  if (distance <? 0) || os_fail E (SysSetFilePointerEx distance)
  then ret false
  else set_pos distance ;;; ret true.

(** [kernel32.SetEndOfFile(handle)]: the file ends at the pointer. *)
Definition SetEndOfFile : io bool :=
  called SysSetEndOfFile ;;;
  if os_fail E SysSetEndOfFile then ret false
  else p <- get_pos ;; set_file p ;;; ret true.

(** [kernel32.SetFileValidData(handle, len)]: needs a privilege; it never
    changes the size of the file. *)
Definition SetFileValidData (len : Z) : io bool :=
  called (SysSetFileValidData len) ;;;
  ret (negb (os_fail E (SysSetFileValidData len))).

(** [extend_file_size_linux(file_path, add_size)] *)
Definition extend_file_size_linux (add_size : Z) : io unit :=
  current_size <- os_path_getsize ;;
  let new_size := current_size + add_size in
  open_rb_plus ;;;
  try_except_AttributeError
    (os_posix_fallocate 0 new_size)
    (f_seek (new_size - 1) ;;; f_write_zero).

(** [adjust_file_size_windows(file_path, add_size)] *)
Definition adjust_file_size_windows (add_size : Z) : io unit :=
  open_rb_plus ;;;
  current_size <- os_path_getsize ;;
  let new_size := current_size + add_size in
  let distance_to_move := LARGE_INTEGER new_size in
  success <- SetFilePointerEx distance_to_move ;;
  if negb success then raise OSError
  else
    success <- SetEndOfFile ;;
    if negb success then raise OSError
    else
      let size_val := LARGE_INTEGER new_size in
      success <- SetFileValidData size_val ;;
      ret tt.

(** [fastwrite_on_windows(file_path, size)] *)
Definition fastwrite_on_windows (size : Z) : io unit :=
  open_wb ;;;
  f_seek (size - 1) ;;;
  f_write_zero ;;;
  let size_val := LARGE_INTEGER size in
  success <- SetFileValidData size_val ;;
  if negb success then f_truncate size else ret tt.

(** [fastwrite_on_linux(file_path, size)] *)
Definition fastwrite_on_linux (size : Z) : io unit :=
  open_wb ;;;
  os_posix_fallocate 0 size.

(** The table [w_funcs] of [__main__]: platform, then [is_append]. *)
Definition w_funcs (os_type : string) (is_append : bool)
  : option (Z -> io unit) :=
  if String.eqb os_type "Windows" then
    Some (if is_append then adjust_file_size_windows else fastwrite_on_windows)
  else if String.eqb os_type "Linux" then
    Some (if is_append then extend_file_size_linux else fastwrite_on_linux)
  else None.

End Primitives.

Definition returned {A} (r : res A) : bool :=
  match r with Ret _ _ => true | Raise _ _ => false end.

Definition state_of {A} (r : res A) : fstate :=
  match r with Ret _ s => s | Raise _ s => s end.

(** A file of the given size (or none), freshly looked at. *)
Definition at_file (f : option Z) : fstate :=
  {| file := f; pos := 0; trace := [] |}.

(** An environment where nothing is refused. *)
Definition env_ok (fallocate : bool) : env :=
  {| has_posix_fallocate := fallocate; os_fail := fun _ => false;
     os_reached := fun _ => 0 |}.

(** An environment without the privilege [SetFileValidData] needs. *)
Definition env_unprivileged : env :=
  {| has_posix_fallocate := false;
     os_fail := fun c => match c with SysSetFileValidData _ => true | _ => false end;
     os_reached := fun _ => 0 |}.

End Alloc.

(** ** Target enumeration *)

Module Walk.

(** What [os.walk] finds under [path].  A directory lists its entries in
    the order [os.scandir] gives them, unless listing it is refused
    ([listable = false]); a non-directory entry is a regular file or not
    (a FIFO, a socket, a device, a dangling link); a symbolic link to a
    directory is listed among the directory names and, [followlinks] being
    off, not entered. *)
#[local] Set Warnings "-register-all".
Inductive node : Type :=
| File (regular : bool)
| Dir (listable : bool) (entries : list (string * node))
| SymlinkDir.

Definition is_dir (n : node) : bool :=
  match n with File _ => false | _ => true end.

(** Induction on a tree, with the property known of every entry of a
    directory. *)
Section node_induction.
Variable P : node -> Prop.
Hypothesis case_File : forall regular, P (File regular).
Hypothesis case_Dir : forall listable es,
    Forall (fun e => P (snd e)) es -> P (Dir listable es).
Hypothesis case_SymlinkDir : P SymlinkDir.

Fixpoint node_tree_ind (n : node) : P n :=
  match n with
  | File regular => case_File regular
  | Dir listable es =>
      case_Dir listable es
        ((fix entries_ind (l : list (string * node))
            : Forall (fun e => P (snd e)) l :=
            match l with
            | [] => Forall_nil _
            | e :: l' =>
                Forall_cons e (node_tree_ind (snd e)) (entries_ind l')
            end) es)
  | SymlinkDir => case_SymlinkDir
  end.
End node_induction.

Definition os_sep : string := "/".

Definition starts_with_sep (s : string) : bool :=
  match s with
  | String c _ => Ascii.eqb c "/"
  | EmptyString => false
  end.

Fixpoint ends_with_sep (s : string) : bool :=
  match s with
  | EmptyString => false
  | String c EmptyString => Ascii.eqb c "/"
  | String _ s' => ends_with_sep s'
  end.

(** [os.path.join(a, b)] of [posixpath]. *)
Definition os_path_join (a b : string) : string :=
  if starts_with_sep b then b
  else if String.eqb a "" || ends_with_sep a then (a ++ b)%string
  else (a ++ os_sep ++ b)%string.

Definition dirnames (es : list (string * node)) : list string :=
  map fst (filter (fun e => is_dir (snd e)) es).

Definition filenames (es : list (string * node)) : list string :=
  map fst (filter (fun e => negb (is_dir (snd e))) es).

(** [os.walk(top)], top-down, errors ignored, links not followed: the
    triples [(dirpath, dirnames, filenames)] in the order they are
    yielded.  A directory that cannot be listed yields nothing. *)
Fixpoint os_walk (top : string) (n : node)
  : list (string * list string * list string) :=
  match n with
  | Dir true es =>
      (top, dirnames es, filenames es) ::
      (fix below (l : list (string * node)) :=
         match l with
         | [] => []
         | (name, child) :: l' =>
             (if is_dir child then
                match child with
                | SymlinkDir => []
                | _ => os_walk (os_path_join top name) child
                end
              else []) ++ below l'
         end) es
  | _ => []
  end.

Section Enumerate.
(** The tree at the path handed to [walk_path], and [os.access(p, os.W_OK)]. *)
Variable root : node.
Variable os_access_W_OK : string -> bool.

(** [walk_path(path, is_append)]; the messages it prints are left out. *)
Definition walk_path (path : string) (is_append : bool) : list string :=
  if negb is_append then
    flat_map (fun t => let '(dir_path, _, _) := t in
                if os_access_W_OK dir_path then [dir_path] else [])
             (os_walk path root)
  else
    flat_map (fun t => let '(dir_path, _, files) := t in
                flat_map (fun file_name =>
                            let file_path := (dir_path ++ os_sep ++ file_name)%string in
                            if os_access_W_OK file_path then [file_path] else [])
                         files)
             (os_walk path root).
End Enumerate.

(** [reaches top n p es]: starting at [top], whose tree is [n], and going
    down through directories that can be listed, one arrives at the
    directory of path [p], which lists [es]. *)
Inductive reaches : string -> node -> string -> list (string * node) -> Prop :=
| reaches_top : forall top es, reaches top (Dir true es) top es
| reaches_down : forall top es name child p es',
    In (name, child) es ->
    reaches (os_path_join top name) child p es' ->
    reaches top (Dir true es) p es'.

End Walk.

(** ** Distribution of the budget over the targets *)

Module Sched.
Import Walk.

(** One turn of the loop of [run], as seen from outside: the element of
    [walk] it is about, the path and byte count handed to [write_func],
    whether [write_func] returned, and whether the whole [try] body did
    (it does not when [write_func] or [hide_file] raises, and the
    [except] clause is entered). *)
Record attempt : Type := {
  target : string;
  filepath : string;
  bytes : Z;
  written : bool;
  completed : bool
}.

Section Run.
(** The world the collaborators act on, and the collaborators: the
    allocation function chosen from [w_funcs], [hide_file] with the
    global [os_type], the text of [random.random()], and what
    [walk_path] reads.  [Some e]: the call raised [e]; [hide_file] does
    so when the file is not there ([FileNotFoundError]) or the platform
    is not one it knows ([ValueError]), and returns otherwise. *)
Variable W : Type.
Variable write_func : string -> Z -> W -> W * option Alloc.exn.
Variable hide_file : string -> string -> W -> W * option Alloc.exn.
Variable os_type : string.
Variable random_random : W -> string * W.
Variable root : node.
Variable os_access_W_OK : string -> bool.

(** The variables of the loop: [size], [step_size], [walk_len]. *)
Record state : Type := {
  size : Z;
  step_size : Z;
  walk_len : Z;
  world : W
}.

(** [tqdm.write(..)]: the name [tqdm] is the module, brought in by
    [import tqdm], and [write] is a method of the class [tqdm.tqdm], not
    an attribute of the module: looking it up raises. *)
Definition tqdm_write : option Alloc.exn := Some Alloc.AttributeError.

(** The [except] clause: [tqdm.write(..); walk_len -= 1; continue].
    With the exception it raises, if any, and the variables as they are
    then. *)
Definition on_exception (st : state) (w : W) : state * option Alloc.exn :=
  match tqdm_write with
  | Some e =>
      ({| size := size st; step_size := step_size st;
          walk_len := walk_len st; world := w |}, Some e)
  | None =>
      ({| size := size st; step_size := step_size st;
          walk_len := walk_len st - 1; world := w |}, None)
  end.

(** After the [try]: [size = size - step_size; walk_len -= 1;
    step_size = size // 2]. *)
Definition on_completion (st : state) (w : W) : state :=
  let size' := size st - step_size st in
  {| size := size'; step_size := size' / 2;
     walk_len := walk_len st - 1; world := w |}.

(** The [try] statement of both loops, once [filepath] is known: the
    attempt, the variables after it, and the exception that leaves the
    statement, if any. *)
Definition iteration (is_hide : bool) (tgt fpath : string) (w : W)
           (st : state) : attempt * state * option Alloc.exn :=
  let n := if negb (walk_len st =? 1) then step_size st else size st in
  let '(w1, e1) := write_func fpath n w in
  match e1 with
  | Some _ =>
      let '(st', e) := on_exception st w1 in
      ({| target := tgt; filepath := fpath; bytes := n;
          written := false; completed := false |}, st', e)
  | None =>
      let '(w2, e2) := if is_hide then hide_file os_type fpath w1
                       else (w1, None) in
      match e2 with
      | Some _ =>
          let '(st', e) := on_exception st w2 in
          ({| target := tgt; filepath := fpath; bytes := n;
              written := true; completed := false |}, st', e)
      | None =>
          ({| target := tgt; filepath := fpath; bytes := n;
              written := true; completed := true |},
           on_completion st w2, None)
      end
  end.

(** Body of the loop of the append mode: the target is the file. *)
Definition append_body (is_hide : bool) (file_path : string) (st : state)
  : attempt * state * option Alloc.exn :=
  iteration is_hide file_path file_path (world st) st.

(** Body of the loop of the splinters mode: a fresh file in the target. *)
Definition splinters_body (is_hide : bool) (dirpath : string) (st : state)
  : attempt * state * option Alloc.exn :=
  let '(r, w) := random_random (world st) in
  let file_name := ("f" ++ r ++ ".dat")%string in
  let fpath := (dirpath ++ os_sep ++ file_name)%string in
  iteration is_hide dirpath fpath w st.

(** [for x in walk: body]: each attempt with the variables it leaves,
    up to the end of the list or to the exception that leaves the loop. *)
Fixpoint loop (body : string -> state -> attempt * state * option Alloc.exn)
         (walk : list string) (st : state)
  : list (attempt * state) * option Alloc.exn :=
  match walk with
  | [] => ([], None)
  | x :: walk' =>
      let '(a, st', e) := body x st in
      match e with
      | Some _ => ([(a, st')], e)
      | None =>
          let '(turns, e') := loop body walk' st' in
          ((a, st') :: turns, e')
      end
  end.

(** The state on entry to the loop. *)
Definition initial (walk : list string) (size0 : Z) (w : W) : state :=
  {| size := size0; step_size := size0 / 2;
     walk_len := Z.of_nat (List.length walk); world := w |}.

(** How [run] ends: in a decreasing mode, with the list of targets, the
    variables on entry, the turns made and the exception that left the
    loop, if any; in the one-file mode, with the attempt and the
    exception that left it, if any. *)
Inductive run_result : Type :=
| Distributed (walk : list string) (start : state)
              (turns : list (attempt * state)) (escaped : option Alloc.exn)
| OneFile (a : attempt) (w : W) (escaped : option Alloc.exn)
| BadType.

(** [run(path, type, size, write_func, is_hide)] *)
Definition run (path type : string) (size0 : Z) (is_hide : bool) (w : W)
  : run_result :=
  if String.eqb type "append" || String.eqb type "a" then
    let walk := walk_path root os_access_W_OK path true in
    let st := initial walk size0 w in
    let '(turns, e) := loop (append_body is_hide) walk st in
    Distributed walk st turns e
  else if String.eqb type "splinters" || String.eqb type "s" then
    let walk := walk_path root os_access_W_OK path false in
    let st := initial walk size0 w in
    let '(turns, e) := loop (splinters_body is_hide) walk st in
    Distributed walk st turns e
  else if String.eqb type "onefile" || String.eqb type "o" then
    let '(r, w0) := random_random w in
    let fpath := (path ++ os_sep ++ "f" ++ r ++ ".dat")%string in
    let '(w1, e1) := write_func fpath size0 w0 in
    match e1 with
    | Some e =>
        OneFile {| target := path; filepath := fpath; bytes := size0;
                   written := false; completed := false |} w1 (Some e)
    | None =>
        let '(w2, e2) := if is_hide then hide_file os_type fpath w1
                         else (w1, None) in
        OneFile {| target := path; filepath := fpath; bytes := size0;
                   written := true;
                   completed := match e2 with None => true | Some _ => false end |}
                w2 e2
    end
  else BadType.

(** What a run of a decreasing mode leaves to look at. *)
Definition turns_of (r : run_result) : list (attempt * state) :=
  match r with Distributed _ _ t _ => t | _ => [] end.

(** The exception that leaves [run], if any. *)
Definition escaped_of (r : run_result) : option Alloc.exn :=
  match r with
  | Distributed _ _ _ e => e
  | OneFile _ _ e => e
  | BadType => None
  end.

Definition attempts_of (r : run_result) : list attempt :=
  map fst (turns_of r).

(** The list of targets a run of a decreasing mode goes through. *)
Definition walk_of (r : run_result) : list string :=
  match r with Distributed walk _ _ _ => walk | _ => [] end.

(** The variables of the loop on entry, then after each turn. *)
Definition states_of (r : run_result) : list state :=
  match r with Distributed _ st t _ => st :: map snd t | _ => [] end.

(** The values of [size]: on entry, then after each turn. *)
Definition sizes_of (r : run_result) : list Z :=
  map size (states_of r).

(** How one turn, seen as the attempt [a], takes the variables from
    [st] to [st']. *)
Definition accounts (st : state) (a : attempt) (st' : state) : Prop :=
  bytes a = (if negb (walk_len st =? 1) then step_size st else size st) /\
  (written a = false -> completed a = false) /\
  (if completed a
   then written a = true /\
        walk_len st' = walk_len st - 1 /\
        size st' = size st - step_size st /\
        step_size st' = size st' / 2
   else walk_len st' = walk_len st /\
        size st' = size st /\ step_size st' = step_size st).

(** A loop body that treats the target it is given, keeps the books as
    [accounts] says, and raises exactly when its [try] body did not run
    to its end. *)
Definition lawful (body : string -> state -> attempt * state * option Alloc.exn)
  : Prop :=
  forall x st,
    target (fst (fst (body x st))) = x /\
    accounts st (fst (fst (body x st))) (snd (fst (body x st))) /\
    snd (body x st) = if completed (fst (fst (body x st))) then None
                      else Some Alloc.AttributeError.
End Run.

Arguments size {W} _.
Arguments step_size {W} _.
Arguments walk_len {W} _.
Arguments world {W} _.
Arguments Distributed {W} _ _ _ _.
Arguments OneFile {W} _ _ _.
Arguments BadType {W}.
Arguments turns_of {W} _.
Arguments escaped_of {W} _.
Arguments attempts_of {W} _.
Arguments walk_of {W} _.
Arguments states_of {W} _.
Arguments sizes_of {W} _.
Arguments accounts {W} _ _ _.
Arguments lawful {W} _.

(** The types under which [run] enumerates files rather than directories. *)
Definition append_mode (type : string) : bool :=
  String.eqb type "append" || String.eqb type "a".

(** The modes the loop serves. *)
Definition decreasing (type : string) : bool :=
  String.eqb type "append" || String.eqb type "a"
  || String.eqb type "splinters" || String.eqb type "s".

(** Bytes handed to the calls of [write_func] that returned. *)
Definition allocated (l : list attempt) : Z :=
  fold_right (fun a acc => if written a then bytes a + acc else acc) 0 l.

(** Bytes of the turns whose [try] body ran to its end. *)
Definition accounted (l : list attempt) : Z :=
  fold_right (fun a acc => if completed a then bytes a + acc else acc) 0 l.

End Sched.

(** ** The allocation functions as the [write_func] of [run] *)

Module Glue.
Import Alloc.

(** The files of the volume, by path. *)
Definition files : Type := string -> fstate.

Definition put (w : files) (p : string) (s : fstate) : files :=
  fun q => if String.eqb q p then s else w q.

(** [write_func(filepath, n)] for an allocation function [f]: it acts on
    the file at [filepath], and its exception, if any, is the call's. *)
Definition on_files (f : Z -> io unit) (fpath : string) (n : Z) (w : files)
  : files * option exn :=
  match f n (w fpath) with
  | Ret _ s => (put w fpath s, None)
  | Raise e s => (put w fpath s, Some e)
  end.

End Glue.

(** ** The distribution as the specification words it *)

Module SpecWords.

(** Section 4.3: with [remaining] bytes and [targetsLeft] targets, the last
    remaining target is allocated all of [remaining], any other one
    [remaining // 2], which is then taken off [remaining]. *)
Fixpoint halving_plan (targetsLeft : nat) (remaining : Z) : list Z :=
  match targetsLeft with
  | O => []
  | S O => [remaining]
  | S k => let chunk := remaining / 2 in
           chunk :: halving_plan k (remaining - chunk)
  end.

End SpecWords.

(** ** A small volume to run on *)

Module Scenario.
Import Alloc Walk Sched Glue.

(** Three writable files under [./test]. *)
Definition three_files : node :=
  Dir true [("t1", File true); ("t2", File true); ("t3", File true)].

(** A tree with a directory that cannot be listed, a link to a directory,
    a FIFO and a file that is not writable. *)
Definition mixed_tree : node :=
  Dir true [("a", Dir true [("x", File true); ("pipe", File false)]);
            ("locked", Dir false [("y", File true)]);
            ("link", SymlinkDir);
            ("ro", File true);
            ("b", Dir true [("c", Dir true [])])].

Definition mixed_access (p : string) : bool :=
  negb (String.eqb p "./test/ro" || String.eqb p "./test/b").

Definition all_writable (p : string) : bool := true.

Definition all_present : files := fun _ => at_file (Some 0).

(** The first target has vanished between enumeration and allocation. *)
Definition t1_vanished : files :=
  fun p => if String.eqb p "./test/t1" then at_file None else at_file (Some 0).

Definition no_hide (os_type fpath : string) (w : files)
  : files * option exn := (w, None).

Definition a_random (w : files) : string * files := ("0.5", w).

(** [run('./test', 'append', size, extend_file_size_linux)] on Linux. *)
Definition run_append (size0 : Z) (w : files) : run_result files :=
  run files (on_files (extend_file_size_linux (env_ok true))) no_hide "Linux"
      a_random three_files all_writable "./test" "append" size0 false w.

(** [run('./test', 's', size, fastwrite_on_linux)] on Linux. *)
Definition run_splinters (size0 : Z) (w : files) : run_result files :=
  run files (on_files (fastwrite_on_linux (env_ok true))) no_hide "Linux"
      a_random mixed_tree mixed_access "./test" "s" size0 false w.

End Scenario.

(** ** Strings the way Python treats them *)

Module Py.

(** [str.lower] and [str.upper], on the ASCII letters. *)
Definition lower_ascii (c : ascii) : ascii :=
  let n := nat_of_ascii c in
  if (Nat.leb 65 n && Nat.leb n 90)%bool then ascii_of_nat (n + 32) else c.

Definition upper_ascii (c : ascii) : ascii :=
  let n := nat_of_ascii c in
  if (Nat.leb 97 n && Nat.leb n 122)%bool then ascii_of_nat (n - 32) else c.

Fixpoint lower (s : string) : string :=
  match s with
  | EmptyString => EmptyString
  | String c s' => String (lower_ascii c) (lower s')
  end.

(** [s.startswith('.')] *)
Definition startswith_dot (s : string) : bool :=
  match s with
  | String c _ => Ascii.eqb c "."
  | EmptyString => false
  end.

(** [s[-1]], where there is one, and [s[:-1]]. *)
Fixpoint last_char (s : string) : option ascii :=
  match s with
  | EmptyString => None
  | String c EmptyString => Some c
  | String _ s' => last_char s'
  end.

Fixpoint all_but_last (s : string) : string :=
  match s with
  | EmptyString => EmptyString
  | String _ EmptyString => EmptyString
  | String c s' => String c (all_but_last s')
  end.

Fixpoint contains_sep (s : string) : bool :=
  match s with
  | EmptyString => false
  | String c s' => Ascii.eqb c "/" || contains_sep s'
  end.

Fixpoint all_sep (s : string) : bool :=
  match s with
  | EmptyString => true
  | String c s' => Ascii.eqb c "/" && all_sep s'
  end.

(** [s.rstrip('/')] *)
Fixpoint rstrip_sep (s : string) : string :=
  match s with
  | EmptyString => EmptyString
  | String c s' =>
      match rstrip_sep s' with
      | EmptyString => if Ascii.eqb c "/" then EmptyString
                       else String c EmptyString
      | r => String c r
      end
  end.

(** [p[:i]] and [p[i:]] for [i = p.rfind('/') + 1]. *)
Fixpoint up_to_last_sep (p : string) : string :=
  match p with
  | EmptyString => EmptyString
  | String c p' =>
      if contains_sep p' then String c (up_to_last_sep p')
      else if Ascii.eqb c "/" then String c EmptyString
      else EmptyString
  end.

Fixpoint after_last_sep (p : string) : string :=
  match p with
  | EmptyString => EmptyString
  | String c p' =>
      if contains_sep p' then after_last_sep p'
      else if Ascii.eqb c "/" then p'
      else p
  end.

(** [os.path.split(p)] of [posixpath]. *)
Definition os_path_split (p : string) : string * string :=
  let head := up_to_last_sep p in
  let tail := after_last_sep p in
  (if negb (String.eqb head "") && negb (all_sep head)
   then rstrip_sep head else head,
   tail).

End Py.

(** ** Hiding a file *)

Module Hide.
Import Alloc Walk Py.

(** What the functions ask of the system. *)
Inductive call : Type :=
| OsPathExists (p : string)                  (* os.path.exists(p) *)
| OsRename (src dst : string)                (* os.rename(src, dst) *)
| RunChattr (p : string)                     (* subprocess.run(['chattr', '+i', p]) *)
| RunAttr (p : string)                       (* subprocess.run(['attr', '-s', 'hidden', '-V', '1', p]) *)
| SetFileAttributesW (p : string) (attributes : Z).

(** What the system answers: whether a path exists, what
    [os.path.abspath] makes of a path (it is taken not to raise), whether
    a renaming raises, the return code of [chattr] ([None]:
    [subprocess.run] raised, the program is not there), and the BOOL of
    [SetFileAttributesW] ([None]: the call raised, there is no
    [ctypes.windll]). *)
Record env : Type := {
  path_exists : string -> bool;
  os_path_abspath : string -> string;
  rename_raises : string -> string -> bool;
  chattr : string -> option Z;
  set_file_attributes : string -> Z -> option bool
}.

Section Functions.
Variable E : env.

(** [_hide_file_windows(filepath)]; a BOOL of zero raises
    [ctypes.WinError()], which the [except] clause turns into [False]
    like any other exception. *)
Definition _hide_file_windows (filepath : string) : list call * bool :=
  let attributes := Z.lor 4 2 in
  ([SetFileAttributesW filepath attributes],
   match set_file_attributes E filepath attributes with
   | Some result => result
   | None => false
   end).

(** The [except] clause of [_hide_file_linux], entered with the calls
    made so far and the value [filepath] has by then: one more attempt
    to rename, its exception passed over, and [False]. *)
Definition linux_except (calls : list call) (filepath : string)
  : list call * bool :=
  let '(dirname, filename) := os_path_split filepath in
  if negb (startswith_dot filename) then
    let new_path := os_path_join dirname ("." ++ filename)%string in
    (calls ++ [OsRename filepath new_path], false)
  else (calls, false).

(** [_hide_file_linux(filepath)]; the messages it prints are left out,
    and so is what the [attr] command answers, which the inner [try]
    passes over. *)
Definition _hide_file_linux (filepath : string) : list call * bool :=
  let '(dirname, filename) := os_path_split filepath in
  let '(calls, filepath', raised) :=
    if negb (startswith_dot filename) then
      let new_path := os_path_join dirname ("." ++ filename)%string in
      let abs_old := os_path_abspath E filepath in
      let abs_new := os_path_abspath E new_path in
      if rename_raises E abs_old abs_new
      then ([OsRename abs_old abs_new], filepath, true)
      else ([OsRename abs_old abs_new], abs_new, false)
    else ([], filepath, false) in
  if raised then linux_except calls filepath'
  else
    match chattr E filepath' with
    | None => linux_except (calls ++ [RunChattr filepath']) filepath'
    | Some returncode =>
        (calls ++ [RunChattr filepath'; RunAttr filepath'], true)
    end.

(** [hide_file(os_type, filepath)] *)
Definition hide_file (os_type filepath : string)
  : list call * (bool + exn) :=
  if negb (path_exists E filepath) then
    ([OsPathExists filepath], inr FileNotFoundError)
  else if String.eqb (lower os_type) "windows" then
    let '(calls, b) := _hide_file_windows filepath in
    (OsPathExists filepath :: calls, inl b)
  else if String.eqb (lower os_type) "linux" then
    let '(calls, b) := _hide_file_linux filepath in
    (OsPathExists filepath :: calls, inl b)
  else ([OsPathExists filepath], inr ValueError).

End Functions.

(** The environment [E], except that [chattr] can be started and exits
    with the given return code. *)
Definition with_returncode (E : env) (returncode : Z) : env :=
  {| path_exists := path_exists E;
     os_path_abspath := os_path_abspath E;
     rename_raises := rename_raises E;
     chattr := fun _ => Some returncode;
     set_file_attributes := set_file_attributes E |}.

(** An environment where every path exists, is already absolute, and
    nothing fails; [chattr] answers with the given return code. *)
Definition env_plain (returncode : Z) : env :=
  {| path_exists := fun _ => true;
     os_path_abspath := fun p => p;
     rename_raises := fun _ _ => false;
     chattr := fun _ => Some returncode;
     set_file_attributes := fun _ _ => Some true |}.

End Hide.

(** ** Privileges *)

Module Admin.
Import Alloc Py.

(** The platform name, what [IsUserAnAdmin] returns ([None]: the call
    raised), whether the system's configuration file can be opened for
    reading, and the effective user id. *)
Record env : Type := {
  platform_system : string;
  IsUserAnAdmin : option Z;
  system_config_opens : bool;
  geteuid : Z
}.

Section Functions.
Variable E : env.

(** [_is_admin_windows()], as a truth value. *)
Definition _is_admin_windows : bool :=
  match IsUserAnAdmin E with
  | Some result => negb (result =? 0)
  | None => system_config_opens E
  end.

(** [_is_admin_unix()] *)
Definition _is_admin_unix : bool := geteuid E =? 0.

(** [is_admin(os_type)]; [None] is the default argument. *)
Definition is_admin (os_type : option string) : bool + exn :=
  let os_type := match os_type with
                 | None => lower (platform_system E)
                 | Some t => t
                 end in
  if String.eqb os_type "Windows" then inl _is_admin_windows
  else if String.eqb os_type "Linux" then inl _is_admin_unix
  else inr ValueError.

End Functions.
End Admin.

(** ** The program *)

Module Main.
Import Alloc Py.

(** What makes the program stop with a traceback. *)
Inductive failure : Type :=
| IndexError
| Raised (e : exn).

(** The table [units] of [convert_to_bytes]. *)
Definition units (c : ascii) : option Z :=
  if Ascii.eqb c "K" then Some 1024
  else if Ascii.eqb c "M" then Some (1024 ^ 2)
  else if Ascii.eqb c "G" then Some (1024 ^ 3)
  else if Ascii.eqb c "T" then Some (1024 ^ 4)
  else None.

Section Convert.
(** [int(float(s) * u)] and [int(s)], which are Python's own: the value,
    or the exception they raise. *)
Variable int_of_float_times : string -> Z -> Z + failure.
Variable int_of_str : string -> Z + failure.

(** [convert_to_bytes(size_str)] *)
Definition convert_to_bytes (size_str : string) : Z + failure :=
  match last_char size_str with
  | None => inr IndexError
  | Some c =>
      match units (upper_ascii c) with
      | Some u => int_of_float_times (all_but_last size_str) u
      | None => int_of_str size_str
      end
  end.

(** The budget [__main__] settles on, from [args.size] and the free
    space of the volume. *)
Definition budget (args_size : string) (free : Z) : Z + failure :=
  if String.eqb args_size "full" then inl free
  else
    match convert_to_bytes args_size with
    | inr f => inr f
    | inl set_size =>
        if set_size <=? free then inl set_size
        else inl (free - 1024 * 1024)
    end.
End Convert.

(** The arguments [argparse] hands over. *)
Record args : Type := {
  path : string;
  size : string;
  mode : string;
  hide : bool
}.

(** What [__main__] meets: the platform, the free space
    [psutil.disk_usage] reports before and after [os.mkdir] (or the
    exception it raises), whether [os.mkdir] raises, the privileges, and
    the line typed at the prompt. *)
Record env : Type := {
  admin : Admin.env;
  disk_usage_free : string -> Z + exn;
  mkdir_raises : string -> option exn;
  disk_usage_free_after_mkdir : string -> Z + exn;
  input : string
}.

(** How [__main__] ends: with a traceback, through [exit], by calling
    [run] with the function [w_funcs[os_type][is_append]], or having done
    nothing. *)
Inductive outcome : Type :=
| Crashed (f : failure)
| Exited (code : option Z)
| Ran (os_type : string) (is_append : bool) (path mode : string)
      (size : Z) (is_hide : bool)
| Idle.

Section Program.
Variable int_of_float_times : string -> Z -> Z + failure.
Variable int_of_str : string -> Z + failure.
Variable E : env.

(** [use_disk.free], with the directory made if it was missing. *)
Definition free_space (p : string) : Z + failure :=
  match disk_usage_free E p with
  | inl free => inl free
  | inr FileNotFoundError =>
      match mkdir_raises E p with
      | Some e => inr (Raised e)
      | None =>
          match disk_usage_free_after_mkdir E p with
          | inl free => inl free
          | inr e => inr (Raised e)
          end
      end
  | inr e => inr (Raised e)
  end.

Definition is_append_mode (m : string) : bool :=
  String.eqb m "append" || String.eqb m "a".

(** The call of [run], on the two platforms that have one. *)
Definition dispatch (os_type : string) (a : args) (size0 : Z) : outcome :=
  if String.eqb os_type "Windows" || String.eqb os_type "Linux"
  then Ran os_type (is_append_mode (mode a)) (path a) (mode a) size0 (hide a)
  else Idle.

(** The block under [if __name__ == '__main__']. *)
Definition main (a : args) : outcome :=
  let os_type := Admin.platform_system (admin E) in
  match free_space (path a) with
  | inr f => Crashed f
  | inl free =>
      match budget int_of_float_times int_of_str (size a) free with
      | inr f => Crashed f
      | inl size0 =>
          if hide a then
            match Admin.is_admin (admin E) (Some os_type) with
            | inr e => Crashed (Raised e)
            | inl false => Exited (Some 1)
            | inl true =>
                if String.eqb (mode a) "a" || String.eqb (mode a) "append" then
                  if String.eqb (input E) "Y" || String.eqb (input E) "y"
                  then dispatch os_type a size0
                  else Exited None
                else dispatch os_type a size0
            end
          else dispatch os_type a size0
      end
  end.
End Program.

End Main.

(** * Properties *)

(** ** The allocation functions *)

Module AllocProps.
Import Alloc.

Lemma LARGE_INTEGER_small (n : Z) :
  - 2 ^ 63 <= n < 2 ^ 63 -> LARGE_INTEGER n = n.
Proof.
  intros H. unfold LARGE_INTEGER.
  rewrite Z.mod_small by lia. lia.
Qed.

Lemma LARGE_INTEGER_range (n : Z) :
  - 2 ^ 63 <= LARGE_INTEGER n < 2 ^ 63.
Proof.
  unfold LARGE_INTEGER.
  pose proof (Z.mod_pos_bound (n + 2 ^ 63) (2 ^ 64) ltac:(lia)). lia.
Qed.

(** Unfold the primitives and split on every test met on the way. *)
Ltac unfold_io :=
  unfold fastwrite_on_windows, fastwrite_on_linux, adjust_file_size_windows,
    extend_file_size_linux, try_except_AttributeError, open_wb, open_rb_plus,
    os_path_getsize, f_seek, f_write_zero, f_truncate, os_posix_fallocate,
    SetFilePointerEx, SetEndOfFile, SetFileValidData, refused, cur_size,
    called, set_file, set_pos, get_file, get_pos, bind, ret, raise in *.

Ltac split_tests :=
  repeat match goal with
         | H : context [if ?c then _ else _] |- _ => destruct c eqn:?
         | H : context [match file ?s with _ => _ end] |- _ =>
             destruct (file s) eqn:?
         | |- context [if ?c then _ else _] => destruct c eqn:?
         end; simpl in *.

Ltac io_cases := unfold_io; simpl in *; split_tests; try discriminate.

Ltac zify_tests :=
  repeat match goal with
         | H : (_ <? _) = true |- _ => apply Z.ltb_lt in H
         | H : (_ <? _) = false |- _ => apply Z.ltb_ge in H
         | H : (_ <=? _) = true |- _ => apply Z.leb_le in H
         | H : (_ <=? _) = false |- _ => apply Z.leb_gt in H
         | H : (_ || _) = false |- _ => apply orb_false_elim in H; destruct H
         | H : (_ || _) = true |- _ => apply orb_true_elim in H; destruct H
         | H : negb _ = true |- _ => apply negb_true_iff in H
         | H : negb _ = false |- _ => apply negb_false_iff in H
         | H : Some _ = Some _ |- _ => injection H as H; subst
         | H : Some _ = None |- _ => discriminate H
         | H : None = Some _ |- _ => discriminate H
         end.

(** A call of [fastwrite_on_windows] that returns leaves a file of exactly
    [n] bytes, and [n] is at least 1, whatever the environment refused. *)
Lemma fastwrite_on_windows_returns (E : env) (n : Z) (s s' : fstate) :
  fastwrite_on_windows E n s = Ret tt s' -> 1 <= n /\ file s' = Some n.
Proof.
  intros H. io_cases; zify_tests;
    inversion H; subst; simpl; split; try lia; f_equal; lia.
Qed.

(** A call of [adjust_file_size_windows] that returns leaves a file of the
    size [LARGE_INTEGER] makes of [current_size + add_size]. *)
Lemma adjust_file_size_windows_returns (E : env) (n : Z) (s s' : fstate) :
  adjust_file_size_windows E n s = Ret tt s' ->
  exists cur, file s = Some cur /\
              0 <= LARGE_INTEGER (cur + n) /\
              file s' = Some (LARGE_INTEGER (cur + n)).
Proof.
  intros H. io_cases; zify_tests;
    inversion H; subst; simpl; eexists; (split; [reflexivity|]); split;
    try reflexivity; lia.
Qed.

(** The fallback of [extend_file_size_linux], taken when [os] has no
    [posix_fallocate]: a call that returns had [new_size >= 1]. *)
Lemma extend_fallback_returns (E : env) (n : Z) (s s' : fstate) :
  has_posix_fallocate E = false ->
  extend_file_size_linux E n s = Ret tt s' ->
  exists cur, file s = Some cur /\ 1 <= cur + n /\
              file s' = Some (Z.max cur (cur + n)).
Proof.
  intros HE H. unfold extend_file_size_linux, try_except_AttributeError,
    os_posix_fallocate in H. rewrite HE in H. io_cases; zify_tests;
    inversion H; subst; simpl; eexists; (split; [reflexivity|]); split;
    try lia; f_equal; lia.
Qed.

(** With [posix_fallocate], [extend_file_size_linux] asks for the range
    [0, current_size + add_size) and nothing else. *)
Lemma extend_with_fallocate (n cur : Z) :
  0 < cur + n <= max_off ->
  extend_file_size_linux (env_ok true) n (at_file (Some cur))
  = Ret tt {| file := Some (Z.max cur (cur + n)); pos := 0;
              trace := [SysStat; SysOpenRW; SysFallocate 0 (cur + n)] |}.
Proof.
  intros H. unfold max_off in H. io_cases; zify_tests; unfold max_off in *; try lia.
  reflexivity.
Qed.

(** Without it, [extend_file_size_linux] seeks to [new_size - 1] and
    writes one zero byte. *)
Lemma extend_without_fallocate (n cur : Z) :
  0 < cur + n <= max_off + 1 ->
  extend_file_size_linux (env_ok false) n (at_file (Some cur))
  = Ret tt {| file := Some (Z.max cur (cur + n)); pos := cur + n;
              trace := [SysStat; SysOpenRW; SysSeek (cur + n - 1); SysWriteZero] |}.
Proof.
  intros H. unfold max_off in H. io_cases; zify_tests; unfold max_off in *; try lia.
  replace (cur + n - 1 + 1) with (cur + n) by lia. reflexivity.
Qed.

(** Where nothing but the privilege is refused, the calls of the Windows
    functions return, with and without the privilege. *)
Lemma fastwrite_on_windows_completes (n : Z) (f : option Z) :
  1 <= n <= max_off ->
  returned (fastwrite_on_windows env_unprivileged n (at_file f)) = true /\
  returned (fastwrite_on_windows (env_ok false) n (at_file f)) = true.
Proof.
  intros H. unfold max_off in H.
  split; io_cases; zify_tests; unfold max_off in *; try lia; reflexivity.
Qed.

Lemma adjust_file_size_windows_completes (n cur : Z) :
  0 <= cur + n < 2 ^ 63 ->
  returned (adjust_file_size_windows env_unprivileged n (at_file (Some cur))) = true /\
  returned (adjust_file_size_windows (env_ok false) n (at_file (Some cur))) = true.
Proof.
  intros H. pose proof (LARGE_INTEGER_small (cur + n) ltac:(lia)) as HL.
  split; io_cases; zify_tests; try reflexivity; lia.
Qed.

(** C7 (as amended): for the valid-data-extend strategy, a call that
    returns leaves a file whose apparent size is the requested one,
    whether [SetFileValidData] succeeded or not: [size] for
    [fastwrite_on_windows], and [current_size + add_size] for
    [adjust_file_size_windows] provided [add_size >= 0] and the new size
    fits [LARGE_INTEGER] (it is below [2^63]).  Two calls from the same
    state that both return, in any two environments, leave the same size;
    and where only the privilege is missing the calls do return. *)
Theorem valid_data_extend_size :
  (forall E n s s',
      fastwrite_on_windows E n s = Ret tt s' -> file s' = Some n) /\
  (forall E n s s' cur,
      file s = Some cur -> 0 <= cur -> 0 <= n -> cur + n < 2 ^ 63 ->
      adjust_file_size_windows E n s = Ret tt s' -> file s' = Some (cur + n)) /\
  (forall E1 E2 n s s1 s2,
      fastwrite_on_windows E1 n s = Ret tt s1 ->
      fastwrite_on_windows E2 n s = Ret tt s2 -> file s1 = file s2) /\
  (forall E1 E2 n s s1 s2,
      adjust_file_size_windows E1 n s = Ret tt s1 ->
      adjust_file_size_windows E2 n s = Ret tt s2 -> file s1 = file s2) /\
  (forall n f,
      1 <= n <= max_off ->
      returned (fastwrite_on_windows env_unprivileged n (at_file f)) = true /\
      returned (fastwrite_on_windows (env_ok false) n (at_file f)) = true) /\
  (forall n cur,
      0 <= cur + n < 2 ^ 63 ->
      returned (adjust_file_size_windows env_unprivileged n (at_file (Some cur))) = true /\
      returned (adjust_file_size_windows (env_ok false) n (at_file (Some cur))) = true).
Proof.
  split; [|split; [|split; [|split; [|split]]]].
  - intros E n s s' H. apply (fastwrite_on_windows_returns E n s s' H).
  - intros E n s s' cur Hs Hc0 Hn Hb H.
    destruct (adjust_file_size_windows_returns _ _ _ _ H) as (c & Hc & _ & Hs').
    rewrite Hs in Hc. injection Hc as <-.
    rewrite Hs', LARGE_INTEGER_small; [reflexivity | lia].
  - intros E1 E2 n s s1 s2 H1 H2.
    destruct (fastwrite_on_windows_returns _ _ _ _ H1) as [_ ->].
    destruct (fastwrite_on_windows_returns _ _ _ _ H2) as [_ ->]. reflexivity.
  - intros E1 E2 n s s1 s2 H1 H2.
    destruct (adjust_file_size_windows_returns _ _ _ _ H1) as (c1 & Hc1 & _ & ->).
    destruct (adjust_file_size_windows_returns _ _ _ _ H2) as (c2 & Hc2 & _ & ->).
    congruence.
  - intros n f H. apply fastwrite_on_windows_completes; assumption.
  - intros n cur H. apply adjust_file_size_windows_completes; assumption.
Qed.

(** Without the privilege, 4096 bytes asked of [fastwrite_on_windows], and
    10 more bytes asked of [adjust_file_size_windows] on a file of 7. *)
Lemma valid_data_extend_size_witness :
  file (state_of (fastwrite_on_windows env_unprivileged 4096 (at_file None)))
  = Some 4096 /\
  file (state_of (adjust_file_size_windows env_unprivileged 10 (at_file (Some 7))))
  = Some (7 + 10).
Proof.
  destruct valid_data_extend_size as (Hf & Ha & _).
  split.
  - apply (Hf env_unprivileged 4096 (at_file None)). reflexivity.
  - apply (Ha env_unprivileged 10 (at_file (Some 7)) _ 7).
    + reflexivity.
    + lia.
    + lia.
    + vm_compute. reflexivity.
    + reflexivity.
Defined.

(** C7 (as stated) fails: [add_size = 2^64 + 5] on an empty file is a
    size [>= 0]; [LARGE_INTEGER] keeps 5 of it, the call returns, and the
    file has 5 bytes, not the requested size. *)
Lemma adjust_file_size_windows_wraps :
  let r := adjust_file_size_windows (env_ok false) (2 ^ 64 + 5) (at_file (Some 0)) in
  0 <= 2 ^ 64 + 5 /\
  returned r = true /\
  file (state_of r) = Some 5 /\
  file (state_of r) <> Some (0 + (2 ^ 64 + 5)).
Proof.
  vm_compute. repeat split; try discriminate; reflexivity.
Qed.

(** C8: [extend_file_size_linux] asks [posix_fallocate] for the range
    [0, new_size) and, where [os] has no [posix_fallocate], seeks to
    [new_size - 1] and writes one zero byte; [fastwrite_on_linux], the
    path that creates the file, has no such fallback: there the
    [AttributeError] leaves the call, after [open] has emptied the file. *)
Theorem fastwrite_on_linux_has_no_fallback :
  (forall n f,
      fastwrite_on_linux (env_ok false) n (at_file f)
      = Raise AttributeError {| file := Some 0; pos := 0; trace := [SysOpenW] |}) /\
  extend_file_size_linux (env_ok false) 4096 (at_file (Some 0))
  = Ret tt {| file := Some 4096; pos := 4096;
              trace := [SysStat; SysOpenRW; SysSeek 4095; SysWriteZero] |} /\
  extend_file_size_linux (env_ok true) 4096 (at_file (Some 0))
  = Ret tt {| file := Some 4096; pos := 0;
              trace := [SysStat; SysOpenRW; SysFallocate 0 4096] |}.
Proof.
  repeat split.
Qed.

(** C10: with [size = 0], [fastwrite_on_windows] raises: it seeks to
    offset -1 (the file [open] created stays behind, empty); so does the
    fallback of [extend_file_size_linux] whenever
    [current_size + add_size = 0]; hence a call of either that returns has
    produced a file of at least 1 byte. *)
Theorem zero_size_raises :
  (forall E s, returned (fastwrite_on_windows E 0 s) = false) /\
  (forall E s,
      os_fail E SysOpenW = false ->
      fastwrite_on_windows E 0 s
      = Raise OSError {| file := Some 0; pos := 0;
                         trace := trace s ++ [SysOpenW; SysSeek (-1)] |}) /\
  (forall E s cur n,
      has_posix_fallocate E = false -> file s = Some cur -> cur + n = 0 ->
      returned (extend_file_size_linux E n s) = false) /\
  (forall E s cur n,
      has_posix_fallocate E = false -> file s = Some cur -> cur + n = 0 ->
      os_fail E SysStat = false -> os_fail E SysOpenRW = false ->
      extend_file_size_linux E n s
      = Raise OSError {| file := Some cur; pos := 0;
                         trace := trace s ++ [SysStat; SysOpenRW; SysSeek (-1)] |}) /\
  (forall E n s s',
      fastwrite_on_windows E n s = Ret tt s' -> 1 <= n /\ file s' = Some n) /\
  (forall E n s s',
      has_posix_fallocate E = false ->
      extend_file_size_linux E n s = Ret tt s' ->
      exists cur, file s = Some cur /\ 1 <= cur + n /\
                  file s' = Some (Z.max cur (cur + n))).
Proof.
  split; [|split; [|split; [|split; [|split]]]].
  - intros E s. destruct (fastwrite_on_windows E 0 s) as [[] s'|e s'] eqn:H.
    + apply fastwrite_on_windows_returns in H. lia.
    + reflexivity.
  - intros E s H. io_cases. rewrite <- app_assoc. reflexivity.
  - intros E s cur n HE Hs Hn.
    destruct (extend_file_size_linux E n s) as [[] s'|e s'] eqn:H.
    + destruct (extend_fallback_returns _ _ _ _ HE H) as (c & Hc & Hge & _).
      rewrite Hs in Hc. injection Hc as <-. lia.
    + reflexivity.
  - intros E s cur n HE Hs Hn H1 H2.
    unfold extend_file_size_linux, try_except_AttributeError, os_posix_fallocate.
    rewrite HE. unfold_io. simpl. rewrite Hs, H1. simpl. rewrite H2. simpl.
    replace (cur + n - 1) with (-1) by lia. simpl.
    rewrite <- !app_assoc. reflexivity.
  - intros E n s s' H. apply (fastwrite_on_windows_returns _ _ _ _ H).
  - intros E n s s' HE H. apply (extend_fallback_returns _ _ _ _ HE H).
Qed.

(** An existing empty file, no [posix_fallocate], nothing asked for. *)
Lemma zero_size_raises_witness :
  returned (extend_file_size_linux (env_ok false) 0 (at_file (Some 0))) = false /\
  returned (fastwrite_on_windows env_unprivileged 0 (at_file None)) = false.
Proof.
  destruct zero_size_raises as (Hw & _ & He & _).
  split.
  - apply (He (env_ok false) (at_file (Some 0)) 0 0); reflexivity.
  - apply Hw.
Defined.

(** *** Further properties of the allocation functions *)

(** A call of [extend_file_size_linux] that returns, in any environment. *)
Lemma extend_file_size_linux_returns (E : env) (n : Z) (s s' : fstate) :
  extend_file_size_linux E n s = Ret tt s' ->
  exists cur, file s = Some cur /\ 1 <= cur + n /\
              file s' = Some (Z.max cur (cur + n)).
Proof.
  destruct (has_posix_fallocate E) eqn:HE.
  - intros H. unfold extend_file_size_linux, try_except_AttributeError,
      os_posix_fallocate in H. rewrite HE in H. io_cases; zify_tests;
      inversion H; subst; simpl; eexists; (split; [reflexivity|]); split;
      try lia; reflexivity.
  - apply extend_fallback_returns. exact HE.
Qed.

(** X1: a call of [extend_file_size_linux] that returns leaves the file
    with [max(current_size, current_size + add_size)] bytes, whether
    [posix_fallocate] exists or the seek-and-write fallback ran: the two
    paths cannot be told apart by the size, the file never shrinks, it
    grows by exactly [add_size] when that is not negative, and no call
    returns for a new size below 1. *)
Theorem extend_file_size_linux_size (E : env) (n cur : Z) (s s' : fstate) :
  file s = Some cur ->
  extend_file_size_linux E n s = Ret tt s' ->
  file s' = Some (Z.max cur (cur + n)) /\
  1 <= cur + n /\
  (forall sz, file s' = Some sz -> cur <= sz) /\
  (0 <= n -> file s' = Some (cur + n)).
Proof.
  intros Hs H.
  destruct (extend_file_size_linux_returns E n s s' H) as (c & Hc & Hge & Hs').
  rewrite Hs in Hc. injection Hc as <-.
  split; [exact Hs'|]. split; [exact Hge|]. split.
  - intros sz Hsz. rewrite Hs' in Hsz. injection Hsz as <-. lia.
  - intros Hn. rewrite Hs'. f_equal. lia.
Qed.

(** A file of 10 bytes asked to grow by 4096, without [posix_fallocate]. *)
Lemma extend_file_size_linux_size_witness :
  file (state_of (extend_file_size_linux (env_ok false) 4096 (at_file (Some 10))))
  = Some (Z.max 10 (10 + 4096)).
Proof.
  refine (proj1 (extend_file_size_linux_size
                   (env_ok false) 4096 10 (at_file (Some 10)) _ _ _)).
  - reflexivity.
  - reflexivity.
Defined.

(** X2: the [AttributeError] of a missing [posix_fallocate] never leaves
    [extend_file_size_linux]: whatever the environment, the file and the
    size asked for, the call returns or raises another exception. *)
Theorem extend_file_size_linux_catches_AttributeError
        (E : env) (n : Z) (s s' : fstate) :
  extend_file_size_linux E n s <> Raise AttributeError s'.
Proof.
  intros H. unfold extend_file_size_linux, try_except_AttributeError in H.
  destruct (has_posix_fallocate E) eqn:HE;
    unfold os_posix_fallocate in H; rewrite HE in H; io_cases.
Qed.

(** X3: a negative [add_size] makes [adjust_file_size_windows] cut the
    file down to [current_size + add_size] bytes, where
    [extend_file_size_linux] leaves a file it is asked to shorten at its
    size. *)
Theorem negative_add_size_truncates_on_windows
        (E : env) (n cur : Z) (s s' : fstate) :
  file s = Some cur -> n < 0 -> cur < 2 ^ 63 -> - 2 ^ 63 <= cur + n ->
  (adjust_file_size_windows E n s = Ret tt s' ->
   file s' = Some (cur + n) /\ 0 <= cur + n < cur) /\
  (extend_file_size_linux E n s = Ret tt s' -> file s' = Some cur).
Proof.
  intros Hs Hn Hc Hlo. split; intros H.
  - destruct (adjust_file_size_windows_returns E n s s' H) as (c & Hc' & Hge & Hs').
    rewrite Hs in Hc'. injection Hc' as <-.
    rewrite LARGE_INTEGER_small in Hge, Hs' by lia.
    split; [exact Hs'|lia].
  - destruct (extend_file_size_linux_returns E n s s' H) as (c & Hc' & _ & Hs').
    rewrite Hs in Hc'. injection Hc' as <-.
    rewrite Hs'. f_equal. lia.
Qed.

(** A file of 10 bytes and [add_size = -3]: 7 bytes on Windows, 10 on
    Linux. *)
Lemma negative_add_size_truncates_on_windows_witness :
  file (state_of (adjust_file_size_windows (env_ok false) (-3) (at_file (Some 10))))
  = Some (10 + -3) /\
  file (state_of (extend_file_size_linux (env_ok true) (-3) (at_file (Some 10))))
  = Some 10.
Proof.
  split.
  - refine (proj1 (proj1 (negative_add_size_truncates_on_windows
                            (env_ok false) (-3) 10 (at_file (Some 10)) _ _ _ _ _) _));
      try reflexivity; lia.
  - refine (proj2 (negative_add_size_truncates_on_windows
                     (env_ok true) (-3) 10 (at_file (Some 10)) _ _ _ _ _) _);
      try reflexivity; lia.
Defined.

(** A call of [fastwrite_on_linux] that returns, in any environment. *)
Lemma fastwrite_on_linux_returns (E : env) (n : Z) (s s' : fstate) :
  fastwrite_on_linux E n s = Ret tt s' -> 1 <= n /\ file s' = Some n.
Proof.
  intros H. unfold fastwrite_on_linux in H.
  destruct (has_posix_fallocate E) eqn:HE;
    unfold os_posix_fallocate in H; rewrite HE in H; io_cases; zify_tests.
  inversion H; subst; simpl. split; [lia|]. f_equal. lia.
Qed.



(** X5: two calls of [extend_file_size_linux] on the same file, one after
    the other, add up: after both have returned the file has grown by the
    sum of the two sizes asked for (neither of them negative). *)
Theorem extend_file_size_linux_twice
        (E1 E2 : env) (a b cur : Z) (s s1 s2 : fstate) :
  file s = Some cur -> 0 <= a -> 0 <= b ->
  extend_file_size_linux E1 a s = Ret tt s1 ->
  extend_file_size_linux E2 b s1 = Ret tt s2 ->
  file s2 = Some (cur + a + b).
Proof.
  intros Hs Ha Hb H1 H2.
  destruct (extend_file_size_linux_returns E1 a s s1 H1) as (c & Hc & _ & Hs1).
  rewrite Hs in Hc. injection Hc as <-.
  destruct (extend_file_size_linux_returns E2 b s1 s2 H2) as (c1 & Hc1 & _ & Hs2).
  rewrite Hs1 in Hc1. injection Hc1 as <-.
  rewrite Hs2. f_equal. lia.
Qed.

(** 500 bytes, then 250 more, with and without [posix_fallocate]. *)
Lemma extend_file_size_linux_twice_witness :
  file (state_of
          (extend_file_size_linux (env_ok false) 250
             (state_of (extend_file_size_linux (env_ok true) 500
                                               (at_file (Some 0))))))
  = Some (0 + 500 + 250).
Proof.
  apply (extend_file_size_linux_twice (env_ok true) (env_ok false) 500 250 0
           (at_file (Some 0))
           (state_of (extend_file_size_linux (env_ok true) 500 (at_file (Some 0)))));
    try reflexivity; lia.
Defined.

(** Two environments that differ at most in what they answer to
    [SetFileValidData]. *)
Lemma adjust_ignores_SetFileValidData (E1 E2 : env) (n : Z) (s : fstate) :
  (forall c, (forall len, c <> SysSetFileValidData len) ->
             os_fail E1 c = os_fail E2 c) ->
  adjust_file_size_windows E1 n s = adjust_file_size_windows E2 n s.
Proof.
  intros HE.
  assert (H1 : os_fail E1 SysOpenRW = os_fail E2 SysOpenRW)
    by (apply HE; discriminate).
  assert (H2 : os_fail E1 SysStat = os_fail E2 SysStat)
    by (apply HE; discriminate).
  assert (H3 : forall d, os_fail E1 (SysSetFilePointerEx d)
                         = os_fail E2 (SysSetFilePointerEx d))
    by (intros d; apply HE; discriminate).
  assert (H4 : os_fail E1 SysSetEndOfFile = os_fail E2 SysSetEndOfFile)
    by (apply HE; discriminate).
  unfold_io. simpl. destruct (file s) as [cur|]; [|reflexivity].
  rewrite H1. destruct (os_fail E2 SysOpenRW); [reflexivity|]. simpl.
  rewrite H2. destruct (os_fail E2 SysStat); [reflexivity|]. simpl.
  rewrite H3.
  destruct ((LARGE_INTEGER (cur + n) <? 0)
            || os_fail E2 (SysSetFilePointerEx (LARGE_INTEGER (cur + n))));
    [reflexivity|]. simpl.
  rewrite H4. destruct (os_fail E2 SysSetEndOfFile); reflexivity.
Qed.

(** X6: the outcome of [adjust_file_size_windows] does not depend on the
    privilege [SetFileValidData] needs: in two environments that differ
    only in what that call answers, the function returns or raises alike
    and leaves the same file; in particular a refused [SetFileValidData]
    never makes it raise. *)
Theorem adjust_file_size_windows_without_privilege
        (E1 E2 : env) (n : Z) (s : fstate) :
  (forall c, (forall len, c <> SysSetFileValidData len) ->
             os_fail E1 c = os_fail E2 c) ->
  returned (adjust_file_size_windows E1 n s)
  = returned (adjust_file_size_windows E2 n s) /\
  file (state_of (adjust_file_size_windows E1 n s))
  = file (state_of (adjust_file_size_windows E2 n s)).
Proof.
  intros HE. rewrite (adjust_ignores_SetFileValidData E1 E2 n s HE).
  split; reflexivity.
Qed.

(** With the privilege and without, on a file of 7 bytes. *)
Lemma adjust_file_size_windows_without_privilege_witness :
  returned (adjust_file_size_windows (env_ok false) 10 (at_file (Some 7)))
  = returned (adjust_file_size_windows env_unprivileged 10 (at_file (Some 7))) /\
  file (state_of (adjust_file_size_windows (env_ok false) 10 (at_file (Some 7))))
  = file (state_of (adjust_file_size_windows env_unprivileged 10 (at_file (Some 7)))).
Proof.
  apply adjust_file_size_windows_without_privilege.
  intros c Hc. destruct c; try reflexivity. exfalso. apply (Hc len). reflexivity.
Defined.

End AllocProps.

(** ** The enumeration *)

Module WalkProps.
Import Walk.

(** What [os.walk] yields below one entry of a directory. *)
Lemma os_walk_Dir (top : string) (es : list (string * node)) :
  os_walk top (Dir true es)
  = (top, dirnames es, filenames es)
      :: flat_map (fun e => os_walk (os_path_join top (fst e)) (snd e)) es.
Proof.
  simpl. f_equal.
  induction es as [|[name child] es IH]; simpl.
  - reflexivity.
  - rewrite IH. f_equal. destruct child; reflexivity.
Qed.

Lemma os_walk_not_listed (top : string) (n : node) :
  (forall es, n <> Dir true es) -> os_walk top n = [].
Proof.
  intros H. destruct n as [r|[|] es|]; try reflexivity.
  exfalso. apply (H es). reflexivity.
Qed.

(** [os.walk] yields a triple exactly for the directories reached through
    directories that can be listed, with their names sorted into
    directories and others. *)
Lemma os_walk_reaches (n : node) :
  forall top p ds fs,
    In (p, ds, fs) (os_walk top n) <->
    exists es, reaches top n p es /\ ds = dirnames es /\ fs = filenames es.
Proof.
  induction n as [r|l es IH|] using node_tree_ind; intros top p ds fs.
  - simpl. split; [tauto|]. intros (es & H & _). inversion H.
  - destruct l.
    + rewrite os_walk_Dir. simpl. rewrite in_flat_map. split.
      * intros [H|([name child] & Hin & H)].
        -- injection H as <- <- <-. exists es. repeat split. constructor.
        -- rewrite Forall_forall in IH. apply (IH _ Hin) in H.
           destruct H as (es' & Hr & -> & ->). exists es'. repeat split.
           eapply reaches_down; eassumption.
      * intros (es' & Hr & -> & ->).
        inversion Hr as [|? ? name child ? ? Hin Hsub]; subst.
        -- left. reflexivity.
        -- right. exists (name, child). split; [assumption|].
           rewrite Forall_forall in IH. apply (IH _ Hin).
           exists es'. repeat split. assumption.
    + simpl. split; [tauto|]. intros (es' & H & _). inversion H.
  - simpl. split; [tauto|]. intros (es & H & _). inversion H.
Qed.

Lemma in_filenames (name : string) (es : list (string * node)) :
  In name (filenames es) <-> exists regular, In (name, File regular) es.
Proof.
  unfold filenames. rewrite in_map_iff. split.
  - intros ([nm c] & <- & H). apply filter_In in H. destruct H as [H Hd].
    destruct c; try discriminate. exists regular. assumption.
  - intros (r & H). exists (name, File r). split; [reflexivity|].
    apply filter_In. split; [assumption|reflexivity].
Qed.

Section Enumerate.
Variable root : node.
Variable os_access_W_OK : string -> bool.

Lemma walk_path_dirs (path p : string) :
  In p (walk_path root os_access_W_OK path false) <->
  (exists es, reaches path root p es) /\ os_access_W_OK p = true.
Proof.
  unfold walk_path. cbn [negb]. cbv iota. rewrite in_flat_map. split.
  - intros ([[d ds] fs] & Hin & H). cbv beta zeta in H.
    destruct (os_access_W_OK d) eqn:Hd; simpl in H; [|tauto].
    destruct H as [<-|[]]. apply os_walk_reaches in Hin.
    destruct Hin as (es & Hr & _). split; [exists es|]; assumption.
  - intros ((es & Hr) & Hp). exists (p, dirnames es, filenames es). split.
    + apply os_walk_reaches. exists es. repeat split. assumption.
    + rewrite Hp. left. reflexivity.
Qed.

Lemma walk_path_files (path fp : string) :
  In fp (walk_path root os_access_W_OK path true) <->
  exists d es name regular,
    reaches path root d es /\ In (name, File regular) es /\
    fp = (d ++ os_sep ++ name)%string /\ os_access_W_OK fp = true.
Proof.
  unfold walk_path. cbn [negb]. cbv iota. rewrite in_flat_map. split.
  - intros ([[d ds] fs] & Hin & H). apply in_flat_map in H.
    destruct H as (name & Hn & H). cbv beta zeta in H.
    destruct (os_access_W_OK (d ++ os_sep ++ name)%string) eqn:Hd; simpl in H; [|tauto].
    destruct H as [<-|[]]. apply os_walk_reaches in Hin.
    destruct Hin as (es & Hr & _ & ->). apply in_filenames in Hn.
    destruct Hn as (r & Hn). exists d, es, name, r. repeat split; assumption.
  - intros (d & es & name & r & Hr & Hn & -> & Hp).
    exists (d, dirnames es, filenames es). split.
    + apply os_walk_reaches. exists es. repeat split. assumption.
    + apply in_flat_map. exists name. split.
      * apply in_filenames. exists r. assumption.
      * rewrite Hp. left. reflexivity.
Qed.

Lemma walk_path_writable (path : string) (is_append : bool) :
  Forall (fun p => os_access_W_OK p = true)
         (walk_path root os_access_W_OK path is_append).
Proof.
  apply Forall_forall. intros p H. destruct is_append.
  - apply walk_path_files in H. destruct H as (d & es & name & r & _ & _ & _ & H).
    assumption.
  - apply walk_path_dirs in H. tauto.
Qed.
End Enumerate.

(** Directories mode lists a directory before everything below it, and
    the subtrees of its entries one after the other. *)
Lemma walk_path_preorder (acc : string -> bool) (top : string)
      (es : list (string * node)) :
  walk_path (Dir true es) acc top false
  = (if acc top then [top] else [])
      ++ flat_map (fun e => match snd e with
                            | Dir _ _ =>
                                walk_path (snd e) acc (os_path_join top (fst e)) false
                            | _ => []
                            end) es.
Proof.
  unfold walk_path. simpl negb. cbv iota. rewrite os_walk_Dir.
  cbn [flat_map]. f_equal.
  induction es as [|[name child] es IH]; simpl.
  - reflexivity.
  - rewrite flat_map_app, IH. f_equal.
    destruct child as [r|l es'|]; reflexivity.
Qed.

(** C9 (as amended): [walk_path] returns a list (computed in full before
    [run] uses it) that holds exactly the write-accessible entries the
    walk reaches from [path]: in directories mode every directory reached
    through directories that can be listed and for which
    [os.access(.., W_OK)] holds, a directory before what is below it and
    subtrees one after the other; in files mode every non-directory entry
    of such a directory that is writable, regular file or not, hence every
    writable regular file; and no entry that is not writable. *)
Theorem walk_path_enumerates (root : node) (acc : string -> bool) (path : string) :
  (forall p,
      In p (walk_path root acc path false) <->
      (exists es, reaches path root p es) /\ acc p = true) /\
  (forall fp,
      In fp (walk_path root acc path true) <->
      exists d es name regular,
        reaches path root d es /\ In (name, File regular) es /\
        fp = (d ++ os_sep ++ name)%string /\ acc fp = true) /\
  (forall d es name,
      reaches path root d es -> In (name, File true) es ->
      acc (d ++ os_sep ++ name)%string = true ->
      In (d ++ os_sep ++ name)%string (walk_path root acc path true)) /\
  (forall is_append,
      Forall (fun p => acc p = true) (walk_path root acc path is_append)) /\
  (forall es,
      root = Dir true es ->
      walk_path root acc path false
      = (if acc path then [path] else [])
          ++ flat_map (fun e => match snd e with
                                | Dir _ _ =>
                                    walk_path (snd e) acc
                                              (os_path_join path (fst e)) false
                                | _ => []
                                end) es).
Proof.
  split; [|split; [|split; [|split]]].
  - intros p. apply walk_path_dirs.
  - intros fp. apply walk_path_files.
  - intros d es name Hr Hin Hacc. apply walk_path_files.
    exists d, es, name, true. repeat split; assumption.
  - intros is_append. apply walk_path_writable.
  - intros es ->. apply walk_path_preorder.
Qed.

(** The writable regular file [x] of the directory [./test/a]. *)
Lemma walk_path_enumerates_witness :
  In "./test/a/x"
     (walk_path Scenario.mixed_tree Scenario.mixed_access "./test" true).
Proof.
  destruct (walk_path_enumerates Scenario.mixed_tree Scenario.mixed_access
                                 "./test") as (_ & _ & H & _).
  apply (H "./test/a" [("x", File true); ("pipe", File false)] "x").
  - eapply (reaches_down "./test" _ "a").
    + left. reflexivity.
    + apply reaches_top.
  - left. reflexivity.
  - reflexivity.
Defined.

(** C9 (as stated) fails: files mode does not keep to regular files.
    The FIFO [pipe] of the directory [./test/a] is writable, and it is
    listed. *)
Lemma fifo_is_listed :
  let es := [("x", File true); ("pipe", File false)] in
  reaches "./test" Scenario.mixed_tree "./test/a" es /\
  In ("pipe", File false) es /\
  ~ In ("pipe", File true) es /\
  Scenario.mixed_access "./test/a/pipe" = true /\
  In "./test/a/pipe"
     (walk_path Scenario.mixed_tree Scenario.mixed_access "./test" true).
Proof.
  cbv zeta. split; [|split; [|split; [|split]]].
  - eapply (reaches_down "./test" _ "a").
    + left. reflexivity.
    + apply reaches_top.
  - right. left. reflexivity.
  - intros [H|[H|[]]]; discriminate H.
  - reflexivity.
  - vm_compute. right. left. reflexivity.
Qed.

End WalkProps.

(** ** The distribution loop *)

Module SchedProps.
Import Walk Sched SpecWords.

Section Bodies.
Variable W : Type.
Variable write_func : string -> Z -> W -> W * option Alloc.exn.
Variable hide_file : string -> string -> W -> W * option Alloc.exn.
Variable os_type : string.
Variable random_random : W -> string * W.

Lemma iteration_accounts (is_hide : bool) (tgt fpath : string) (w : W)
      (st : state W) :
  let r := iteration W write_func hide_file os_type is_hide tgt fpath w st in
  target (fst (fst r)) = tgt /\
  accounts st (fst (fst r)) (snd (fst r)) /\
  snd r = if completed (fst (fst r)) then None else Some Alloc.AttributeError.
Proof.
  unfold iteration, accounts, on_exception, tqdm_write.
  destruct (write_func fpath _ w) as [w1 [e1|]]; simpl.
  - repeat split; congruence.
  - destruct (if is_hide then hide_file os_type fpath w1 else (w1, None))
      as [w2 [e2|]]; simpl; repeat split; congruence.
Qed.

Lemma append_body_lawful (is_hide : bool) :
  lawful (append_body W write_func hide_file os_type is_hide).
Proof. intros x st. apply iteration_accounts. Qed.

Lemma splinters_body_lawful (is_hide : bool) :
  lawful (splinters_body W write_func hide_file os_type random_random is_hide).
Proof.
  intros x st. unfold splinters_body.
  destruct (random_random (world st)) as [r w]. apply iteration_accounts.
Qed.
End Bodies.

(** What holds of the loop for any lawful body. *)
Section Loop.
Variable W : Type.
Variable body : string -> state W -> attempt * state W * option Alloc.exn.
Hypothesis body_lawful : lawful body.

(** One step of the loop, by the outcome of its first turn. *)
Lemma loop_step (x : string) (walk : list string) (st : state W) :
  let a := fst (fst (body x st)) in
  let st' := snd (fst (body x st)) in
  loop W body (x :: walk) st
  = if completed a
    then ((a, st') :: fst (loop W body walk st'), snd (loop W body walk st'))
    else ([(a, st')], Some Alloc.AttributeError).
Proof.
  simpl. destruct (body_lawful x st) as (_ & _ & He).
  destruct (body x st) as [[a st'] e]. simpl in *. subst e.
  destruct (completed a); [|reflexivity].
  destruct (loop W body walk st') as [turns e']. reflexivity.
Qed.

Lemma body_accounts (x : string) (st : state W) :
  accounts st (fst (fst (body x st))) (snd (fst (body x st))).
Proof. apply body_lawful. Qed.

Lemma loop_length (walk : list string) (st : state W) :
  (List.length (fst (loop W body walk st)) <= List.length walk)%nat.
Proof.
  revert st. induction walk as [|x walk IH]; intros st.
  - simpl. lia.
  - rewrite loop_step. destruct (completed _); simpl.
    + specialize (IH (snd (fst (body x st)))). lia.
    + lia.
Qed.

Lemma loop_targets (walk : list string) (st : state W) :
  map target (map fst (fst (loop W body walk st)))
  = firstn (List.length (fst (loop W body walk st))) walk.
Proof.
  revert st. induction walk as [|x walk IH]; intros st.
  - reflexivity.
  - rewrite loop_step. destruct (body_lawful x st) as (Ht & _).
    destruct (completed _); simpl; rewrite Ht; [now rewrite IH|reflexivity].
Qed.

(** When every turn ran to its end the loop went through the whole list
    and no exception left it. *)
Lemma loop_full (walk : list string) :
  forall st : state W,
    Forall (fun a => completed a = true) (map fst (fst (loop W body walk st))) ->
    snd (loop W body walk st) = None /\
    List.length (fst (loop W body walk st)) = List.length walk.
Proof.
  induction walk as [|x walk IH]; intros st.
  - intros _. split; reflexivity.
  - rewrite loop_step. destruct (completed _) eqn:Hc; simpl; intros Hall.
    + inversion Hall as [|? ? _ Hrest]; subst.
      destruct (IH _ Hrest) as [He Hl]. split; [exact He|now rewrite Hl].
    + inversion Hall as [|? ? Hc' _]; subst. congruence.
Qed.

(** A turn that did not run to its end is the last one, and its
    exception leaves the loop. *)
Lemma loop_failed_last (walk : list string) :
  forall (st : state W) (i : nat) (a : attempt) (st' : state W),
    nth_error (fst (loop W body walk st)) i = Some (a, st') ->
    completed a = false ->
    snd (loop W body walk st) = Some Alloc.AttributeError /\
    List.length (fst (loop W body walk st)) = S i.
Proof.
  induction walk as [|x walk IH]; intros st i a st' H Hc.
  - destruct i; discriminate H.
  - rewrite loop_step in H |- *. destruct (completed _) eqn:Hc0; simpl in *.
    + destruct i as [|i]; simpl in H.
      * injection H as <- <-. congruence.
      * destruct (IH _ i a st' H Hc) as [He Hl]. split; [exact He|now rewrite Hl].
    + destruct i as [|[|i]]; simpl in H; try discriminate H.
      split; reflexivity.
Qed.

(** The turns before the last one ran to their end. *)
Lemma loop_before_last (walk : list string) :
  forall (st : state W) (l : list attempt) (a : attempt),
    map fst (fst (loop W body walk st)) = l ++ [a] ->
    Forall (fun x => completed x = true) l.
Proof.
  induction walk as [|x walk IH]; intros st l a H.
  - destruct l; discriminate H.
  - rewrite loop_step in H. destruct (completed _) eqn:Hc; simpl in H.
    + destruct l as [|b l]; simpl in H.
      * constructor.
      * injection H as <- H. constructor; [exact Hc|]. apply (IH _ l a H).
    + destruct l as [|b l]; simpl in H.
      * constructor.
      * injection H as _ H. destruct l; discriminate H.
Qed.

(** Turn [i] starts from the state turn [i - 1] left and accounts for
    its attempt. *)
Lemma loop_turn (walk : list string) :
  forall (st : state W) (i : nat) (a : attempt) (st' : state W),
    nth_error (fst (loop W body walk st)) i = Some (a, st') ->
    exists prev,
      nth_error (st :: map snd (fst (loop W body walk st))) i = Some prev /\
      accounts prev a st' /\
      walk_len prev = walk_len st - Z.of_nat i.
Proof.
  induction walk as [|x walk IH]; intros st i a st' H.
  - destruct i; discriminate H.
  - pose proof (body_accounts x st) as Hacc.
    rewrite loop_step in H |- *. destruct (completed _) eqn:Hc0; simpl in *.
    + destruct i as [|i]; simpl in H |- *.
      * injection H as <- <-. exists st.
        split; [reflexivity|split; [exact Hacc|lia]].
      * destruct (IH _ i a st' H) as (prev & Hp & Ha & Hl).
        exists prev. split; [exact Hp|split; [exact Ha|]].
        destruct Hacc as (_ & _ & Hca). rewrite Hc0 in Hca. lia.
    + destruct i as [|[|i]]; simpl in H |- *; try discriminate H.
      injection H as <- <-. exists st.
      split; [reflexivity|split; [exact Hacc|lia]].
Qed.

(** [step_size] stays half of [size], and [size] shrinks without ever
    passing below zero. *)
Lemma loop_sizes (walk : list string) :
  forall st : state W,
    0 <= size st -> step_size st = size st / 2 ->
    Forall (fun s => 0 <= size s <= size st /\ step_size s = size s / 2)
           (map snd (fst (loop W body walk st))) /\
    StronglySorted (fun x y => y <= x)
                   (map size (st :: map snd (fst (loop W body walk st)))).
Proof.
  induction walk as [|x walk IH]; intros st H0 Hs.
  - simpl. split; constructor; constructor.
  - pose proof (body_accounts x st) as Hacc.
    rewrite loop_step.
    set (a := fst (fst (body x st))) in *.
    set (st' := snd (fst (body x st))) in *.
    destruct Hacc as (_ & _ & Hc).
    assert (Hst' : 0 <= size st' <= size st /\ step_size st' = size st' / 2).
    { destruct (completed a).
      - destruct Hc as (_ & _ & Hsz & Hst). split; [|assumption].
        rewrite Hsz, Hs. pose proof (Z.div_mod (size st) 2 ltac:(lia)).
        pose proof (Z.mod_pos_bound (size st) 2 ltac:(lia)). lia.
      - destruct Hc as (_ & Hsz & Hst). rewrite Hsz, Hst. split; [lia|assumption]. }
    destruct Hst' as [Hb Hh].
    destruct (IH st' (proj1 Hb) Hh) as [IHf IHs].
    assert (Hall : forall l,
               Forall (fun s => 0 <= size s <= size st'
                                /\ step_size s = size s / 2) l ->
               Forall (fun s => 0 <= size s <= size st
                                /\ step_size s = size s / 2) (st' :: l)).
    { intros l Hl. constructor; [split; assumption|].
      eapply Forall_impl; [|exact Hl]. simpl. intros s [Hs1 Hs2].
      split; [lia|assumption]. }
    assert (Hsort : forall l,
               Forall (fun s => 0 <= size s <= size st'
                                /\ step_size s = size s / 2) l ->
               StronglySorted (fun x y => y <= x) (map size (st' :: l)) ->
               StronglySorted (fun x y => y <= x) (map size (st :: st' :: l))).
    { intros l Hl Hso. constructor; [exact Hso|].
      change (Forall (fun y => y <= size st) (map size (st' :: l))).
      apply Forall_map. eapply Forall_impl; [|exact (Hall l Hl)]. simpl. lia. }
    destruct (completed a); simpl.
    + split; [exact (Hall _ IHf)|exact (Hsort _ IHf IHs)].
    + split; [exact (Hall [] (Forall_nil _))|].
      apply (Hsort []); [constructor|]. repeat constructor.
Qed.

(** When the last target of the list is reached and allocated, the bytes
    of the successful calls add up to the budget. *)
Lemma loop_allocated (walk : list string) :
  forall (st : state W) (l : list attempt) (a : attempt),
    walk_len st = Z.of_nat (List.length walk) ->
    map fst (fst (loop W body walk st)) = l ++ [a] ->
    List.length (l ++ [a]) = List.length walk ->
    written a = true ->
    allocated (l ++ [a]) = size st.
Proof.
  induction walk as [|x walk IH]; intros st l a Hlen Hl Hn Hw.
  - destruct l; discriminate Hl.
  - pose proof (body_accounts x st) as Hacc.
    rewrite loop_step in Hl.
    set (a0 := fst (fst (body x st))) in *.
    set (st0 := snd (fst (body x st))) in *.
    destruct Hacc as (Hb & _ & Hca).
    simpl List.length in Hlen, Hn. rewrite Nat2Z.inj_succ in Hlen.
    destruct l as [|b l].
    + simpl in Hn. injection Hn as Hn. symmetry in Hn.
      apply length_zero_iff_nil in Hn. subst walk. simpl in Hlen.
      rewrite Hlen in Hb. simpl in Hb.
      assert (Ha : a0 = a).
      { destruct (completed a0); simpl in Hl; injection Hl as Hl; exact Hl. }
      subst a. simpl. rewrite Hw. lia.
    + destruct (completed a0) eqn:Hc0; simpl in Hl.
      * injection Hl as <- Hl.
        destruct Hca as (Hw0 & Hwl & Hsz & _).
        rewrite length_app in Hn. simpl in Hn.
        assert (Hne : (walk_len st =? 1) = false).
        { apply Z.eqb_neq. lia. }
        rewrite Hne in Hb. simpl in Hb.
        assert (Hlen0 : walk_len st0 = Z.of_nat (List.length walk)) by lia.
        assert (Hn0 : List.length (l ++ [a]) = List.length walk).
        { rewrite length_app. simpl. lia. }
        specialize (IH st0 l a Hlen0 Hl Hn0 Hw).
        change (allocated ((a0 :: l) ++ [a]))
          with (if written a0 then bytes a0 + allocated (l ++ [a])
                else allocated (l ++ [a])).
        rewrite Hw0, IH. lia.
      * injection Hl as _ Hl. destruct l; discriminate Hl.
Qed.

(** With every turn running to its end the calls follow the halving
    plan of the specification. *)
Lemma loop_halving (walk : list string) :
  forall st : state W,
    walk_len st = Z.of_nat (List.length walk) ->
    step_size st = size st / 2 ->
    Forall (fun a => completed a = true) (map fst (fst (loop W body walk st))) ->
    map bytes (map fst (fst (loop W body walk st)))
    = halving_plan (List.length walk) (size st).
Proof.
  induction walk as [|x walk IH]; intros st Hlen Hs Hall.
  - reflexivity.
  - pose proof (body_accounts x st) as Hacc.
    rewrite loop_step in Hall |- *.
    set (a0 := fst (fst (body x st))) in *.
    set (st0 := snd (fst (body x st))) in *.
    destruct Hacc as (Hb & _ & Hca).
    destruct (completed a0) eqn:Hc0; simpl in Hall;
      inversion Hall as [|? ? Hc Hrest]; subst; [|congruence].
    destruct Hca as (_ & Hw & Hsz & Hst).
    simpl List.length in Hlen. rewrite Nat2Z.inj_succ in Hlen.
    simpl fst. simpl map.
    destruct walk as [|y walk].
    + simpl in Hlen. rewrite Hlen in Hb. simpl in Hb. simpl. now rewrite Hb.
    + assert (Hne : (walk_len st =? 1) = false).
      { apply Z.eqb_neq. simpl List.length in Hlen. lia. }
      rewrite Hne in Hb. simpl in Hb.
      rewrite (IH st0); try assumption.
      * rewrite Hb, Hsz, Hs. reflexivity.
      * lia.
Qed.
End Loop.

Lemma allocated_accounted (l : list attempt) :
  Forall (fun a => completed a = written a) l -> allocated l = accounted l.
Proof.
  induction 1 as [|a l Ha _ IH]; simpl.
  - reflexivity.
  - now rewrite Ha, IH.
Qed.

(** [run] in a decreasing mode is the loop, with a lawful body, over the
    list [walk_path] returned. *)
Section RunShape.
Variable W : Type.
Variable write_func : string -> Z -> W -> W * option Alloc.exn.
Variable hide_file : string -> string -> W -> W * option Alloc.exn.
Variable os_type : string.
Variable random_random : W -> string * W.
Variable root : node.
Variable acc : string -> bool.

Local Abbreviation run' :=
  (run W write_func hide_file os_type random_random root acc).

Lemma run_decreasing (path type : string) (size0 : Z) (is_hide : bool) (w : W) :
  decreasing type = true ->
  exists body,
    lawful body /\
    let walk := walk_path root acc path (append_mode type) in
    run' path type size0 is_hide w
    = Distributed walk (initial W walk size0 w)
                  (fst (loop W body walk (initial W walk size0 w)))
                  (snd (loop W body walk (initial W walk size0 w))).
Proof.
  unfold decreasing, append_mode, run. intros H.
  destruct (String.eqb type "append" || String.eqb type "a") eqn:Ha.
  - exists (append_body W write_func hide_file os_type is_hide).
    split; [apply append_body_lawful|].
    cbv zeta. destruct (loop _ _ _ _) as [turns e]. reflexivity.
  - simpl in H. rewrite H.
    exists (splinters_body W write_func hide_file os_type random_random is_hide).
    split; [apply splinters_body_lawful|].
    cbv zeta. destruct (loop _ _ _ _) as [turns e]. reflexivity.
Qed.

Lemma run_other (path type : string) (size0 : Z) (is_hide : bool) (w : W) :
  decreasing type = false ->
  turns_of (run' path type size0 is_hide w) = [] /\
  states_of (run' path type size0 is_hide w) = [].
Proof.
  unfold decreasing, run. intros H.
  destruct (String.eqb type "append" || String.eqb type "a") eqn:Ha;
    [discriminate H|].
  simpl in H. rewrite H.
  destruct (String.eqb type "onefile" || String.eqb type "o");
    [|split; reflexivity].
  destruct (random_random w) as [r w0].
  destruct (write_func _ size0 w0) as [w1 [e1|]]; [split; reflexivity|].
  destruct (if is_hide then hide_file os_type _ w1 else (w1, None)) as [w2 e2].
  split; reflexivity.
Qed.

(** Every turn of a run starts from the state before it and accounts
    for its attempt. *)
Lemma run_turn (path type : string) (size0 : Z) (is_hide : bool) (w : W)
      (i : nat) (st : state W) (a : attempt) (st' : state W) :
  nth_error (states_of (run' path type size0 is_hide w)) i = Some st ->
  nth_error (turns_of (run' path type size0 is_hide w)) i = Some (a, st') ->
  accounts st a st'.
Proof.
  destruct (decreasing type) eqn:Hd.
  - destruct (run_decreasing path type size0 is_hide w Hd) as (body & Hb & ->).
    simpl. intros Hs Ht.
    destruct (loop_turn W body Hb _ _ _ _ _ Ht) as (prev & Hp & Ha & _).
    rewrite Hs in Hp. injection Hp as <-. exact Ha.
  - destruct (run_other path type size0 is_hide w Hd) as [-> _].
    intros _ Ht. destruct i; discriminate Ht.
Qed.
End RunShape.

(** C1 (as amended): a turn whose [try] body ran to its end takes 1 off
    [walk_len] and [step_size] (half of [size]) off [size]; a turn whose
    allocation failed takes nothing off [size] and leaves [step_size] as
    it was: a failed target forfeits nothing.  With a budget of 1000 and
    three targets of which the first fails, the first target is offered
    500 and [size] after that turn is still 1000. *)
Theorem failure_forfeits_nothing :
  (forall (W : Type) write_func hide_file os_type random_random root acc
          path type size0 is_hide (w : W) i st a st',
      let r := run W write_func hide_file os_type random_random root acc
                   path type size0 is_hide w in
      nth_error (states_of r) i = Some st ->
      nth_error (turns_of r) i = Some (a, st') ->
      (completed a = true ->
       walk_len st' = walk_len st - 1 /\
       size st' = size st - step_size st /\ step_size st' = size st' / 2) /\
      (written a = false -> size st' = size st /\ step_size st' = step_size st)) /\
  (let r := Scenario.run_append 1000 Scenario.t1_vanished in
   nth_error (map written (attempts_of r)) 0 = Some false /\
   nth_error (map bytes (attempts_of r)) 0 = Some 500 /\
   nth_error (sizes_of r) 1 = Some 1000).
Proof.
  split.
  - intros W write_func hide_file os_type random_random root acc
           path type size0 is_hide w i st a st' r Hs Ht.
    destruct (run_turn _ _ _ _ _ _ _ _ _ _ _ _ _ _ _ _ Hs Ht)
      as (_ & Hwc & Hc).
    split.
    + intros Ha. rewrite Ha in Hc. tauto.
    + intros Ha. rewrite (Hwc Ha) in Hc. tauto.
  - vm_compute. repeat split.
Qed.

(** The first turn of the scenario: the file has vanished, and 1000
    bytes remain. *)
Lemma failure_forfeits_nothing_witness :
  nth 1 (sizes_of (Scenario.run_append 1000 Scenario.t1_vanished)) 0
  = nth 0 (sizes_of (Scenario.run_append 1000 Scenario.t1_vanished)) 0.
Proof.
  pose (r := Scenario.run_append 1000 Scenario.t1_vanished).
  destruct (nth_error (states_of r) 0) as [st|] eqn:Hs; [|discriminate Hs].
  destruct (nth_error (turns_of r) 0) as [[a st']|] eqn:Ht; [|discriminate Ht].
  destruct (proj1 failure_forfeits_nothing _ _ _ _ _ _ _ _ _ _ _ _ _ _ _ _ Hs Ht)
    as (_ & H).
  injection Hs as <-. injection Ht as <- <-.
  apply H. reflexivity.
Defined.

(** C1 (as stated) fails: in the scenario of the claim the first target
    fails, yet [size] after the first turn is 1000, not 500, and neither
    the second nor the third target is offered 250. *)
Lemma failed_target_keeps_its_chunk :
  let r := Scenario.run_append 1000 Scenario.t1_vanished in
  nth_error (map written (attempts_of r)) 0 = Some false /\
  nth_error (sizes_of r) 1 = Some 1000 /\
  nth_error (sizes_of r) 1 <> Some (1000 - 500) /\
  nth_error (map bytes (attempts_of r)) 1 <> Some 250 /\
  nth_error (map bytes (attempts_of r)) 2 <> Some 250.
Proof.
  vm_compute. repeat split; discriminate.
Qed.

(** C2: in a decreasing mode, when no allocation fails, the byte counts
    handed to the targets are those of the halving plan of the
    specification: [remaining // 2] for every target but the last, with
    [remaining] starting at the budget and reduced by each chunk, and all
    of [remaining] for the last target. *)
Theorem decreasing_chunks_halve
        (W : Type) write_func hide_file os_type random_random root acc
        (path type : string) (size0 : Z) (is_hide : bool) (w : W) :
  let r := run W write_func hide_file os_type random_random root acc
               path type size0 is_hide w in
  decreasing type = true ->
  Forall (fun a => completed a = true) (attempts_of r) ->
  map bytes (attempts_of r) = halving_plan (List.length (walk_of r)) size0.
Proof.
  intros r Hd. subst r.
  destruct (run_decreasing W write_func hide_file os_type random_random root acc
                           path type size0 is_hide w Hd) as (body & Hb & ->).
  simpl. unfold attempts_of. simpl. intros Hall.
  apply (loop_halving W body Hb); try assumption; reflexivity.
Qed.

(** A budget of 1000 over three files that all take their share. *)
Lemma decreasing_chunks_halve_witness :
  map bytes (attempts_of (Scenario.run_append 1000 Scenario.all_present))
  = [500; 250; 250].
Proof.
  change [500; 250; 250]
    with (halving_plan
            (List.length (walk_of (Scenario.run_append 1000 Scenario.all_present)))
            1000).
  apply decreasing_chunks_halve.
  - reflexivity.
  - vm_compute. repeat constructor.
Defined.

(** C3: a turn whose allocation fails leaves [size], the remaining
    budget, as it found it. *)
Theorem failure_keeps_budget
        (W : Type) write_func hide_file os_type random_random root acc
        (path type : string) (size0 : Z) (is_hide : bool) (w : W)
        (i : nat) (st : state W) (a : attempt) (st' : state W) :
  let r := run W write_func hide_file os_type random_random root acc
               path type size0 is_hide w in
  nth_error (states_of r) i = Some st ->
  nth_error (turns_of r) i = Some (a, st') ->
  written a = false ->
  size st' = size st.
Proof.
  intros r Hs Ht Hw.
  destruct (run_turn _ _ _ _ _ _ _ _ _ _ _ _ _ _ _ _ Hs Ht)
    as (_ & Hwc & Hc).
  rewrite (Hwc Hw) in Hc. tauto.
Qed.

(** The turn of the vanished file: 1000 bytes before it, 1000 after. *)
Lemma failure_keeps_budget_witness :
  nth 1 (sizes_of (Scenario.run_append 1000 Scenario.t1_vanished)) 0
  = nth 0 (sizes_of (Scenario.run_append 1000 Scenario.t1_vanished)) 0.
Proof.
  pose (r := Scenario.run_append 1000 Scenario.t1_vanished).
  destruct (nth_error (states_of r) 0) as [st|] eqn:Hs; [|discriminate Hs].
  destruct (nth_error (turns_of r) 0) as [[a st']|] eqn:Ht; [|discriminate Ht].
  pose proof (failure_keeps_budget _ _ _ _ _ _ _ _ _ _ _ _ _ _ _ _ Hs Ht) as H.
  injection Hs as <-. injection Ht as <- <-.
  apply H. reflexivity.
Defined.

(** The exception that leaves a run after a turn that did not run to its
    end. *)
Lemma run_failed_last
      (W : Type) write_func hide_file os_type random_random root acc
      (path type : string) (size0 : Z) (is_hide : bool) (w : W)
      (i : nat) (a : attempt) (st' : state W) :
  nth_error (turns_of (run W write_func hide_file os_type random_random root acc
                           path type size0 is_hide w)) i = Some (a, st') ->
  completed a = false ->
  escaped_of (run W write_func hide_file os_type random_random root acc
                  path type size0 is_hide w) = Some Alloc.AttributeError /\
  List.length (turns_of (run W write_func hide_file os_type random_random root acc
                             path type size0 is_hide w)) = S i.
Proof.
  destruct (decreasing type) eqn:Hd.
  - destruct (run_decreasing W write_func hide_file os_type random_random root acc
                             path type size0 is_hide w Hd) as (body & Hb & ->).
    simpl. apply (loop_failed_last W body Hb).
  - destruct (run_other W write_func hide_file os_type random_random root acc
                        path type size0 is_hide w Hd) as [-> _].
    intros Ht. destruct i; discriminate Ht.
Qed.

(** C4: the bytes handed to the successful calls of [write_func] add up
    to the budget whenever the last target of the list is reached and
    allocated, and then every turn before it has run to its end; but a
    failed target's chunk is offered to no later target: with a budget of
    1000 and three targets of which the first fails, the [except] clause
    raises [AttributeError] on [tqdm.write], [run] ends there, and
    nothing is allocated. *)
Theorem budget_spent_only_without_failure :
  (forall (W : Type) write_func hide_file os_type random_random root acc
          path type size0 is_hide (w : W) l a,
      let r := run W write_func hide_file os_type random_random root acc
                   path type size0 is_hide w in
      decreasing type = true ->
      attempts_of r = l ++ [a] ->
      List.length (attempts_of r) = List.length (walk_of r) ->
      written a = true ->
      allocated (attempts_of r) = size0 /\
      Forall (fun x => completed x = true) l) /\
  (let r := Scenario.run_append 1000 Scenario.t1_vanished in
   walk_of r = ["./test/t1"; "./test/t2"; "./test/t3"] /\
   attempts_of r = [{| target := "./test/t1"; filepath := "./test/t1";
                       bytes := 500; written := false; completed := false |}] /\
   escaped_of r = Some Alloc.AttributeError /\
   allocated (attempts_of r) = 0).
Proof.
  split.
  - intros W write_func hide_file os_type random_random root acc
           path type size0 is_hide w l a r Hd. subst r.
    destruct (run_decreasing W write_func hide_file os_type random_random root acc
                             path type size0 is_hide w Hd) as (body & Hb & ->).
    unfold attempts_of. simpl. intros Hl Hn Hw. split.
    + rewrite Hl. rewrite Hl in Hn.
      apply (loop_allocated W body Hb
               (walk_path root acc path (append_mode type))
               (initial W (walk_path root acc path (append_mode type)) size0 w)
               l a eq_refl Hl Hn Hw).
    + apply (loop_before_last W body Hb _ _ _ _ Hl).
  - vm_compute. repeat split.
Qed.

(** Three files that are all there: 500, 250 and 250 bytes. *)
Lemma budget_spent_only_without_failure_witness :
  allocated (attempts_of (Scenario.run_append 1000 Scenario.all_present)) = 1000.
Proof.
  pose (r := Scenario.run_append 1000 Scenario.all_present).
  refine (proj1 (proj1 budget_spent_only_without_failure
                   _ _ _ _ _ _ _ _ _ _ _ _
                   (removelast (attempts_of r))
                   (last (attempts_of r) (Build_attempt "" "" 0 false false))
                   _ _ _ _)).
  - reflexivity.
  - reflexivity.
  - reflexivity.
  - reflexivity.
Defined.

(** C5: a turn that does not run to its end, because [write_func] or
    [hide_file] raised, is the last turn of the run: the [except] clause
    raises [AttributeError] on [tqdm.write] before it reaches [continue],
    the exception leaves [run], and no later target is attempted.  With
    three targets of which the first fails, only the first is attempted. *)
Theorem first_failure_ends_the_run :
  (forall (W : Type) write_func hide_file os_type random_random root acc
          path type size0 is_hide (w : W) i a st',
      let r := run W write_func hide_file os_type random_random root acc
                   path type size0 is_hide w in
      nth_error (turns_of r) i = Some (a, st') ->
      completed a = false ->
      escaped_of r = Some Alloc.AttributeError /\
      List.length (turns_of r) = S i) /\
  (let r := Scenario.run_append 1000 Scenario.t1_vanished in
   walk_of r = ["./test/t1"; "./test/t2"; "./test/t3"] /\
   map target (attempts_of r) = ["./test/t1"] /\
   map written (attempts_of r) = [false] /\
   escaped_of r = Some Alloc.AttributeError).
Proof.
  split.
  - intros W write_func hide_file os_type random_random root acc
           path type size0 is_hide w i a st' r. apply run_failed_last.
  - vm_compute. repeat split.
Qed.

(** The first turn of the scenario is its last. *)
Lemma first_failure_ends_the_run_witness :
  List.length (turns_of (Scenario.run_append 1000 Scenario.t1_vanished)) = 1%nat.
Proof.
  pose (r := Scenario.run_append 1000 Scenario.t1_vanished).
  destruct (nth_error (turns_of r) 0) as [[a st']|] eqn:Ht; [|discriminate Ht].
  destruct (proj1 first_failure_ends_the_run _ _ _ _ _ _ _ _ _ _ _ _ _ _ _ Ht)
    as [_ H].
  - injection Ht as <- _. reflexivity.
  - exact H.
Defined.

(** C6: from a budget that is not negative, [size] never grows from one
    turn to the next and never becomes negative, whatever succeeds or
    fails. *)
Theorem budget_never_grows
        (W : Type) write_func hide_file os_type random_random root acc
        (path type : string) (size0 : Z) (is_hide : bool) (w : W) :
  let r := run W write_func hide_file os_type random_random root acc
               path type size0 is_hide w in
  0 <= size0 ->
  StronglySorted (fun x y => y <= x) (sizes_of r) /\
  Forall (fun s => 0 <= s) (sizes_of r).
Proof.
  intros r H0. subst r. destruct (decreasing type) eqn:Hd.
  - destruct (run_decreasing W write_func hide_file os_type random_random root
                             acc path type size0 is_hide w Hd) as (body & Hb & ->).
    unfold sizes_of. simpl states_of.
    destruct (loop_sizes W body Hb
                (walk_path root acc path (append_mode type))
                (initial W (walk_path root acc path (append_mode type)) size0 w)
                H0 eq_refl) as [Hf Hs].
    split; [exact Hs|].
    simpl map. constructor; [exact H0|].
    apply Forall_map. eapply Forall_impl; [|exact Hf]. simpl. tauto.
  - unfold sizes_of.
    destruct (run_other W write_func hide_file os_type random_random root acc
                        path type size0 is_hide w Hd) as [_ ->].
    split; constructor.
Qed.

(** The sizes 1000, 500, 250, 125 of the scenario without a failure. *)
Lemma budget_never_grows_witness :
  StronglySorted (fun x y => y <= x) [1000; 500; 250; 125] /\
  Forall (fun s => 0 <= s) [1000; 500; 250; 125].
Proof.
  change [1000; 500; 250; 125]
    with (sizes_of (Scenario.run_append 1000 Scenario.all_present)).
  apply budget_never_grows. lia.
Defined.

(** *** Further properties of the distribution loop *)

(** The remaining budget after [i] halvings that all went through. *)
Lemma half_up (b : Z) : b - b / 2 = (b + 1) / 2.
Proof.
  pose proof (Z.div_mod b 2 ltac:(lia)).
  pose proof (Z.mod_pos_bound b 2 ltac:(lia)).
  pose proof (Z.div_mod (b + 1) 2 ltac:(lia)).
  pose proof (Z.mod_pos_bound (b + 1) 2 ltac:(lia)). lia.
Qed.

Lemma ceil_half (b : Z) (i : nat) :
  ((b + 1) / 2 + 2 ^ Z.of_nat i - 1) / 2 ^ Z.of_nat i
  = (b + 2 ^ Z.of_nat (S i) - 1) / 2 ^ Z.of_nat (S i).
Proof.
  rewrite Nat2Z.inj_succ, Z.pow_succ_r by lia.
  assert (Hp : 0 < 2 ^ Z.of_nat i) by (apply Z.pow_pos_nonneg; lia).
  replace ((b + 1) / 2 + 2 ^ Z.of_nat i - 1)
    with ((b + 1) / 2 + (2 ^ Z.of_nat i - 1)) by lia.
  rewrite <- Z.div_add by lia.
  rewrite Z.div_div by lia.
  f_equal. lia.
Qed.

Section LoopMore.
Variable W : Type.
Variable body : string -> state W -> attempt * state W * option Alloc.exn.
Hypothesis body_lawful : lawful body.

(** [step_size] is half of [size] at every turn, whatever the sign. *)
Lemma loop_half (walk : list string) :
  forall st : state W,
    step_size st = size st / 2 ->
    Forall (fun s => step_size s = size s / 2)
           (st :: map snd (fst (loop W body walk st))).
Proof.
  induction walk as [|x walk IH]; intros st Hs.
  - simpl. repeat constructor. exact Hs.
  - pose proof (body_accounts W body body_lawful x st) as Hacc.
    rewrite (loop_step W body body_lawful).
    set (a := fst (fst (body x st))) in *.
    set (st' := snd (fst (body x st))) in *.
    assert (Hst' : step_size st' = size st' / 2).
    { destruct Hacc as (_ & _ & Hc). destruct (completed a).
      - tauto.
      - destruct Hc as (_ & Hsz & Hst). now rewrite Hst, Hsz. }
    constructor; [exact Hs|].
    destruct (completed a); simpl.
    + apply (IH st' Hst').
    + repeat constructor. exact Hst'.
Qed.

(** The byte count of turn [i]: half of [size], or all of it at the last
    element of the list. *)
Lemma loop_bytes (walk : list string) (st : state W) (i : nat)
      (prev : state W) (a : attempt) (st' : state W) :
  walk_len st = Z.of_nat (List.length walk) ->
  step_size st = size st / 2 ->
  nth_error (st :: map snd (fst (loop W body walk st))) i = Some prev ->
  nth_error (fst (loop W body walk st)) i = Some (a, st') ->
  bytes a = if Nat.eqb (S i) (List.length walk) then size prev
            else size prev / 2.
Proof.
  intros Hlen Hs Hp Ht.
  destruct (loop_turn W body body_lawful walk st i a st' Ht)
    as (prev' & Hp' & Hacc & Hwl).
  rewrite Hp in Hp'. injection Hp' as <-.
  pose proof (loop_half walk st Hs) as Hh.
  rewrite Forall_forall in Hh.
  specialize (Hh prev (nth_error_In _ _ Hp)).
  destruct Hacc as (Hb & _). rewrite Hb, Hwl, Hlen, Hh.
  assert (Hi : (i < List.length walk)%nat).
  { pose proof (loop_length W body body_lawful walk st).
    assert (i < List.length (fst (loop W body walk st)))%nat; [|lia].
    apply nth_error_Some. rewrite Ht. discriminate. }
  destruct (Nat.eqb (S i) (List.length walk)) eqn:He.
  - apply Nat.eqb_eq in He.
    replace (Z.of_nat (List.length walk) - Z.of_nat i) with 1 by lia.
    reflexivity.
  - apply Nat.eqb_neq in He.
    destruct (Z.of_nat (List.length walk) - Z.of_nat i =? 1) eqn:H1;
      [apply Z.eqb_eq in H1; lia|reflexivity].
Qed.

(** No request is negative or above what is left, and the turns that ran
    to their end never add up to more than the budget. *)
Lemma loop_bounded (walk : list string) :
  forall st : state W,
    walk_len st = Z.of_nat (List.length walk) ->
    0 <= size st -> step_size st = size st / 2 ->
    Forall (fun a => 0 <= bytes a <= size st)
           (map fst (fst (loop W body walk st))) /\
    0 <= accounted (map fst (fst (loop W body walk st))) <= size st.
Proof.
  induction walk as [|x walk IH]; intros st Hlen H0 Hs.
  - simpl. split; [constructor|lia].
  - pose proof (body_accounts W body body_lawful x st) as Hacc.
    rewrite (loop_step W body body_lawful).
    set (a := fst (fst (body x st))) in *.
    set (st' := snd (fst (body x st))) in *.
    destruct Hacc as (Hb & _ & Hc).
    simpl List.length in Hlen. rewrite Nat2Z.inj_succ in Hlen.
    assert (Hhalf : 0 <= size st / 2 <= size st).
    { pose proof (Z.div_mod (size st) 2 ltac:(lia)).
      pose proof (Z.mod_pos_bound (size st) 2 ltac:(lia)). lia. }
    assert (Hba : 0 <= bytes a <= size st).
    { rewrite Hb. destruct (negb (walk_len st =? 1)); lia. }
    destruct (completed a) eqn:Hca; simpl.
    + destruct Hc as (_ & Hwl & Hsz & Hst).
      destruct (IH st' ltac:(lia) ltac:(lia) Hst) as [IHf IHa].
      split.
      * constructor; [exact Hba|].
        eapply Forall_impl; [|exact IHf]. simpl. lia.
      * rewrite Hca. destruct walk as [|y walk].
        -- simpl in *. lia.
        -- assert (Hne : (walk_len st =? 1) = false).
           { apply Z.eqb_neq. simpl List.length in Hlen. lia. }
           rewrite Hne in Hb. simpl in Hb. lia.
    + split; [repeat constructor; lia|]. rewrite Hca. lia.
Qed.

(** With every turn running to its end, [size] after [i] turns is the
    budget divided by [2 ^ i], rounded up. *)
Lemma loop_ceiling (walk : list string) :
  forall (st : state W) (i : nat) (s : Z),
    step_size st = size st / 2 ->
    Forall (fun a => completed a = true) (map fst (fst (loop W body walk st))) ->
    nth_error (map size (st :: map snd (fst (loop W body walk st)))) i = Some s ->
    s = (size st + 2 ^ Z.of_nat i - 1) / 2 ^ Z.of_nat i.
Proof.
  induction walk as [|x walk IH]; intros st i s Hs Hall Hn.
  - destruct i as [|[|i]]; simpl in Hn; try discriminate Hn.
    injection Hn as <-. simpl. rewrite Z.div_1_r. lia.
  - pose proof (body_accounts W body body_lawful x st) as Hacc.
    rewrite (loop_step W body body_lawful) in Hall, Hn.
    set (a := fst (fst (body x st))) in *.
    set (st' := snd (fst (body x st))) in *.
    destruct Hacc as (_ & _ & Hca).
    destruct (completed a) eqn:Hc; simpl in Hall, Hn;
      inversion Hall as [|? ? Hc' Hrest]; subst; [|congruence].
    destruct Hca as (_ & _ & Hsz & Hst).
    destruct i as [|i].
    + simpl in Hn. injection Hn as <-. simpl. rewrite Z.div_1_r. lia.
    + simpl in Hn. rewrite (IH st' i s Hst Hrest Hn).
      rewrite Hsz, Hs, half_up. apply ceil_half.
Qed.
End LoopMore.

(** X7: in a decreasing mode, for every call of [write_func] that [run]
    makes, the one that fails included, the byte count for the target at
    position [i] of the list is half of the budget then remaining,
    [size // 2], except at the last position of the list, where it is all
    of [size]. *)
Theorem chunk_is_half_or_all
        (W : Type) write_func hide_file os_type random_random root acc
        (path type : string) (size0 : Z) (is_hide : bool) (w : W)
        (i : nat) (st : state W) (a : attempt) (st' : state W) :
  let r := run W write_func hide_file os_type random_random root acc
               path type size0 is_hide w in
  decreasing type = true ->
  nth_error (states_of r) i = Some st ->
  nth_error (turns_of r) i = Some (a, st') ->
  bytes a = if Nat.eqb (S i) (List.length (walk_of r)) then size st
            else size st / 2.
Proof.
  intros r Hd. subst r.
  destruct (run_decreasing W write_func hide_file os_type random_random root acc
                           path type size0 is_hide w Hd) as (body & Hb & ->).
  simpl. intros Hs Ht.
  apply (loop_bytes W body Hb
           (walk_path root acc path (append_mode type))
           (initial W (walk_path root acc path (append_mode type)) size0 w)
           i st a st' eq_refl eq_refl Hs Ht).
Qed.

(** The call that fails, for the first of three targets: half of the
    1000 bytes there are. *)
Lemma chunk_is_half_or_all_witness :
  nth 0 (map bytes (attempts_of (Scenario.run_append 1000 Scenario.t1_vanished))) 0
  = nth 0 (sizes_of (Scenario.run_append 1000 Scenario.t1_vanished)) 0 / 2.
Proof.
  pose (r := Scenario.run_append 1000 Scenario.t1_vanished).
  destruct (nth_error (states_of r) 0) as [st|] eqn:Hs; [|discriminate Hs].
  destruct (nth_error (turns_of r) 0) as [[a st']|] eqn:Ht; [|discriminate Ht].
  pose proof (fun Hd =>
                chunk_is_half_or_all
                  _ (Glue.on_files (Alloc.extend_file_size_linux (Alloc.env_ok true)))
                  Scenario.no_hide "Linux" Scenario.a_random Scenario.three_files
                  Scenario.all_writable "./test" "append" 1000 false
                  Scenario.t1_vanished 0 st a st' Hd Hs Ht) as H.
  injection Hs as <-. injection Ht as <- <-.
  exact (H eq_refl).
Defined.

(** The bounds of [loop_bounded], for a run. *)
Lemma run_requests_bounded
      (W : Type) write_func hide_file os_type random_random root acc
      (path type : string) (size0 : Z) (is_hide : bool) (w : W) :
  decreasing type = true ->
  0 <= size0 ->
  Forall (fun a => 0 <= bytes a <= size0)
         (attempts_of (run W write_func hide_file os_type random_random root acc
                           path type size0 is_hide w)) /\
  0 <= accounted (attempts_of (run W write_func hide_file os_type random_random
                                   root acc path type size0 is_hide w))
  <= size0.
Proof.
  intros Hd H0.
  destruct (run_decreasing W write_func hide_file os_type random_random root acc
                           path type size0 is_hide w Hd) as (body & Hb & ->).
  unfold attempts_of. simpl.
  apply (loop_bounded W body Hb
           (walk_path root acc path (append_mode type))
           (initial W (walk_path root acc path (append_mode type)) size0 w)
           eq_refl H0 eq_refl).
Qed.

(** X8: from a budget that is not negative, every byte count handed to
    [write_func] lies between 0 and the budget, and the byte counts of
    the turns that ran to their end add up to at most the budget; so do
    those of the successful calls of [write_func] when no [hide_file]
    raised after one. *)
Theorem never_more_than_the_budget
        (W : Type) write_func hide_file os_type random_random root acc
        (path type : string) (size0 : Z) (is_hide : bool) (w : W) :
  let r := run W write_func hide_file os_type random_random root acc
               path type size0 is_hide w in
  decreasing type = true ->
  0 <= size0 ->
  Forall (fun a => 0 <= bytes a <= size0) (attempts_of r) /\
  0 <= accounted (attempts_of r) <= size0 /\
  (Forall (fun a => completed a = written a) (attempts_of r) ->
   0 <= allocated (attempts_of r) <= size0).
Proof.
  intros r Hd H0. subst r.
  destruct (run_requests_bounded W write_func hide_file os_type random_random
              root acc path type size0 is_hide w Hd H0) as [Hf Ha].
  split; [exact Hf|]. split; [exact Ha|].
  intros Hall. rewrite (allocated_accounted _ Hall). exact Ha.
Qed.

(** The scenario with a vanished file: nothing out of 1000. *)
Lemma never_more_than_the_budget_witness :
  0 <= allocated (attempts_of (Scenario.run_append 1000 Scenario.t1_vanished))
  <= 1000.
Proof.
  refine (proj2 (proj2 (never_more_than_the_budget
                          _ _ _ _ _ _ _ _ _ _ _ _ _ _)) _).
  - reflexivity.
  - lia.
  - vm_compute. repeat constructor.
Defined.

(** X9: in a decreasing mode, when no turn fails, the budget remaining
    after [i] turns is the initial budget divided by [2 ^ i], rounded
    up. *)
Theorem remaining_after_i_halvings
        (W : Type) write_func hide_file os_type random_random root acc
        (path type : string) (size0 : Z) (is_hide : bool) (w : W)
        (i : nat) (s : Z) :
  let r := run W write_func hide_file os_type random_random root acc
               path type size0 is_hide w in
  decreasing type = true ->
  Forall (fun a => completed a = true) (attempts_of r) ->
  nth_error (sizes_of r) i = Some s ->
  s = (size0 + 2 ^ Z.of_nat i - 1) / 2 ^ Z.of_nat i.
Proof.
  intros r Hd. subst r.
  destruct (run_decreasing W write_func hide_file os_type random_random root acc
                           path type size0 is_hide w Hd) as (body & Hb & ->).
  unfold attempts_of, sizes_of. simpl states_of. simpl turns_of.
  intros Hall Hn.
  apply (loop_ceiling W body Hb
           (walk_path root acc path (append_mode type))
           (initial W (walk_path root acc path (append_mode type)) size0 w)
           i s eq_refl Hall Hn).
Qed.

(** 1001 bytes over three files: 251 are left after two turns. *)
Lemma remaining_after_i_halvings_witness :
  nth 2 (sizes_of (Scenario.run_append 1001 Scenario.all_present)) 0
  = (1001 + 2 ^ Z.of_nat 2 - 1) / 2 ^ Z.of_nat 2.
Proof.
  apply (remaining_after_i_halvings
           _ (Glue.on_files (Alloc.extend_file_size_linux (Alloc.env_ok true)))
           Scenario.no_hide "Linux" Scenario.a_random Scenario.three_files
           Scenario.all_writable "./test" "append" 1001 false
           Scenario.all_present 2).
  - reflexivity.
  - vm_compute. repeat constructor.
  - reflexivity.
Defined.

End SchedProps.
(** ** The loop with the allocation functions as [write_func] *)

Module ComposeProps.
Import Alloc Walk Sched Glue.

(** A successful turn is a call of [write_func] that returned. *)
Section Calls.
Variable W : Type.
Variable write_func : string -> Z -> W -> W * option exn.
Variable hide_file : string -> string -> W -> W * option exn.
Variable os_type : string.
Variable random_random : W -> string * W.

Lemma iteration_written (is_hide : bool) (tgt fpath : string) (w : W)
      (st : state W) :
  let a := fst (fst (iteration W write_func hide_file os_type is_hide
                               tgt fpath w st)) in
  written a = true -> snd (write_func (filepath a) (bytes a) w) = None.
Proof.
  unfold iteration, on_exception, tqdm_write.
  destruct (write_func fpath _ w) as [w1 [e1|]] eqn:Hw; simpl.
  - discriminate.
  - intros _.
    destruct (if is_hide then hide_file os_type fpath w1 else (w1, None))
      as [w2 [e2|]]; simpl; now rewrite Hw.
Qed.

Lemma loop_written
      (body : string -> state W -> attempt * state W * option exn)
      (walk : list string) :
  (forall x st, written (fst (fst (body x st))) = true ->
                exists w, snd (write_func (filepath (fst (fst (body x st))))
                                          (bytes (fst (fst (body x st)))) w)
                          = None) ->
  forall st,
    Forall (fun a => written a = true ->
                     exists w, snd (write_func (filepath a) (bytes a) w) = None)
           (map fst (fst (loop W body walk st))).
Proof.
  intros Hbody. induction walk as [|x walk IH]; intros st; simpl.
  - constructor.
  - specialize (Hbody x st). destruct (body x st) as [[a st'] e]. simpl in *.
    destruct e as [e|].
    + simpl. constructor; [exact Hbody|constructor].
    + specialize (IH st'). destruct (loop W body walk st') as [turns e'].
      simpl in *. constructor; [exact Hbody|exact IH].
Qed.

Lemma run_written root acc (path type : string) (size0 : Z) (is_hide : bool)
      (w : W) :
  Forall (fun a => written a = true ->
                   exists w', snd (write_func (filepath a) (bytes a) w') = None)
         (attempts_of (run W write_func hide_file os_type random_random root acc
                           path type size0 is_hide w)).
Proof.
  unfold run, attempts_of.
  destruct (String.eqb type "append" || String.eqb type "a").
  - cbv zeta.
    pose proof (loop_written (append_body W write_func hide_file os_type is_hide)
                  (walk_path root acc path true)) as H.
    destruct (loop _ _ _ _) as [turns e] eqn:Hl.
    simpl. specialize (H (fun x st Hw =>
      ex_intro _ (world st) (iteration_written is_hide x x (world st) st Hw))
      (initial W (walk_path root acc path true) size0 w)).
    rewrite Hl in H. exact H.
  - destruct (String.eqb type "splinters" || String.eqb type "s").
    + cbv zeta.
      pose proof (loop_written
                    (splinters_body W write_func hide_file os_type random_random
                                    is_hide)
                    (walk_path root acc path false)) as H.
      destruct (loop _ _ _ _) as [turns e] eqn:Hl.
      simpl. assert (Hb : forall x st,
        written (fst (fst (splinters_body W write_func hide_file os_type
                                          random_random is_hide x st))) = true ->
        exists w0, snd (write_func
          (filepath (fst (fst (splinters_body W write_func hide_file os_type
                                              random_random is_hide x st))))
          (bytes (fst (fst (splinters_body W write_func hide_file os_type
                                           random_random is_hide x st)))) w0)
          = None).
      { intros x st. unfold splinters_body.
        destruct (random_random (world st)) as [r w0]. intros Hw.
        exists w0. apply (iteration_written is_hide x _ w0 st Hw). }
      specialize (H Hb (initial W (walk_path root acc path false) size0 w)).
      rewrite Hl in H. exact H.
    + destruct (String.eqb type "onefile" || String.eqb type "o");
        [|constructor].
      destruct (random_random w) as [r w0].
      destruct (write_func _ size0 w0) as [w1 [e1|]]; [constructor|].
      destruct (if is_hide then hide_file os_type _ w1 else (w1, None)) as [w2 e2].
      constructor.
Qed.
End Calls.

Lemma on_files_returned (f : Z -> io unit) (p : string) (n : Z) (w : files) :
  snd (on_files f p n w) = None -> returned (f n (w p)) = true.
Proof.
  unfold on_files. destruct (f n (w p)); simpl; [reflexivity|discriminate].
Qed.

(** X10: when the path handed to [run] is no directory that can be
    listed (it is missing, unreadable or a file), or when nothing under
    it is writable, a run in a decreasing mode makes no call of
    [write_func] at all and leaves the budget as it was. *)
Theorem nothing_to_walk_nothing_done
        (W : Type) write_func hide_file os_type random_random root acc
        (path type : string) (size0 : Z) (is_hide : bool) (w : W) :
  let r := run W write_func hide_file os_type random_random root acc
               path type size0 is_hide w in
  decreasing type = true ->
  (forall es, root <> Dir true es) \/ (forall p, acc p = false) ->
  attempts_of r = [] /\ sizes_of r = [size0].
Proof.
  intros r Hd Hroot. subst r.
  destruct (SchedProps.run_decreasing W write_func hide_file os_type
              random_random root acc path type size0 is_hide w Hd)
    as (body & Hb & ->).
  assert (Hw : walk_path root acc path (append_mode type) = []).
  { destruct Hroot as [Hr|Ha].
    - unfold walk_path. rewrite (WalkProps.os_walk_not_listed path root Hr).
      destruct (negb (append_mode type)); reflexivity.
    - pose proof (WalkProps.walk_path_writable root acc path (append_mode type))
        as Hf.
      destruct (walk_path root acc path (append_mode type)) as [|p l];
        [reflexivity|].
      inversion Hf as [|? ? Hp _]; subst. rewrite Ha in Hp. discriminate Hp. }
  rewrite Hw. split; reflexivity.
Qed.

(** A path that is a file, not a directory. *)
Lemma nothing_to_walk_nothing_done_witness :
  attempts_of (run files (on_files (fastwrite_on_linux (env_ok true)))
                   Scenario.no_hide "Linux" Scenario.a_random (File true)
                   Scenario.all_writable "./test" "s" 1000 false
                   Scenario.all_present) = [].
Proof.
  refine (proj1 (nothing_to_walk_nothing_done
                   _ _ _ _ _ _ _ _ _ _ _ _ _ _)).
  - reflexivity.
  - left. intros es. discriminate.
Defined.

(** X11: with a budget of 0 and one of the functions that create the
    file ([fastwrite_on_linux], [fastwrite_on_windows]) as [write_func],
    every call of a run in a decreasing mode is for 0 bytes and raises:
    nothing is allocated, in whatever environment. *)
Theorem zero_budget_allocates_nothing
        (E : env) (windows : bool) hide_file os_type random_random root acc
        (path type : string) (is_hide : bool) (w : files) :
  let f := if windows then fastwrite_on_windows E else fastwrite_on_linux E in
  let r := run files (on_files f) hide_file os_type random_random root acc
               path type 0 is_hide w in
  decreasing type = true ->
  Forall (fun a => bytes a = 0 /\ written a = false) (attempts_of r) /\
  allocated (attempts_of r) = 0.
Proof.
  intros f r Hd.
  destruct (SchedProps.run_requests_bounded files (on_files f) hide_file
              os_type random_random root acc path type 0 is_hide w Hd
              ltac:(lia)) as [Hb _].
  pose proof (run_written files (on_files f) hide_file os_type random_random
                          root acc path type 0 is_hide w) as Hw.
  fold r in Hb, Hw.
  assert (Hall : Forall (fun a => bytes a = 0 /\ written a = false)
                        (attempts_of r)).
  { rewrite Forall_forall in *. intros a Ha.
    specialize (Hb a Ha). specialize (Hw a Ha).
    assert (Hz : bytes a = 0) by lia. split; [exact Hz|].
    destruct (written a) eqn:Hwa; [|reflexivity]. exfalso.
    destruct (Hw eq_refl) as (w' & Hn).
    apply on_files_returned in Hn. rewrite Hz in Hn. subst f.
    destruct windows.
    - destruct (fastwrite_on_windows E 0 (w' (filepath a))) as [[] s'|e s'] eqn:Hf;
        [|discriminate Hn].
      apply AllocProps.fastwrite_on_windows_returns in Hf. lia.
    - destruct (fastwrite_on_linux E 0 (w' (filepath a))) as [[] s'|e s'] eqn:Hf;
        [|discriminate Hn].
      apply AllocProps.fastwrite_on_linux_returns in Hf. lia. }
  split; [exact Hall|].
  clear - Hall. induction Hall as [|a l [_ Ha] _ IH]; simpl.
  - reflexivity.
  - rewrite Ha. exact IH.
Qed.

(** The splinters run of the scenario, with nothing to distribute. *)
Lemma zero_budget_allocates_nothing_witness :
  allocated (attempts_of (Scenario.run_splinters 0 Scenario.all_present)) = 0.
Proof.
  refine (proj2 (zero_budget_allocates_nothing
                   (env_ok true) false Scenario.no_hide "Linux" Scenario.a_random
                   Scenario.mixed_tree Scenario.mixed_access "./test" "s" false
                   Scenario.all_present _)).
  reflexivity.
Defined.

End ComposeProps.


(** ** Paths *)

Module PyProps.
Import Walk Py.

Lemma contains_sep_app (a b : string) :
  contains_sep (a ++ b) = contains_sep a || contains_sep b.
Proof.
  induction a as [|c a IH]; simpl.
  - reflexivity.
  - rewrite IH. apply orb_assoc.
Qed.

Lemma up_to_last_sep_app (d name : string) :
  contains_sep name = false ->
  up_to_last_sep (d ++ "/" ++ name) = (d ++ "/")%string.
Proof.
  intros Hn. cbn [append].
  assert (Hc : forall a, contains_sep (a ++ String "/" name) = true).
  { intros a. rewrite contains_sep_app. simpl. apply orb_true_r. }
  induction d as [|c d IH]; simpl.
  - rewrite Hn. reflexivity.
  - rewrite Hc, IH. reflexivity.
Qed.

Lemma after_last_sep_app (d name : string) :
  contains_sep name = false ->
  after_last_sep (d ++ "/" ++ name) = name.
Proof.
  intros Hn. cbn [append].
  assert (Hc : forall a, contains_sep (a ++ String "/" name) = true).
  { intros a. rewrite contains_sep_app. simpl. apply orb_true_r. }
  induction d as [|c d IH]; simpl.
  - rewrite Hn. reflexivity.
  - rewrite Hc. exact IH.
Qed.

Lemma rstrip_sep_app (s : string) :
  rstrip_sep (s ++ "/") = rstrip_sep s.
Proof.
  induction s as [|c s IH]; simpl.
  - reflexivity.
  - rewrite IH. reflexivity.
Qed.

Lemma rstrip_sep_id (s : string) :
  ends_with_sep s = false -> rstrip_sep s = s.
Proof.
  induction s as [|c s IH]; intros H.
  - reflexivity.
  - destruct s as [|c' s].
    + simpl in H |- *. rewrite H. reflexivity.
    + change (ends_with_sep (String c' s) = false) in H.
      change (rstrip_sep (String c (String c' s)))
        with (match rstrip_sep (String c' s) with
              | EmptyString => if Ascii.eqb c "/" then EmptyString
                               else String c EmptyString
              | r => String c r
              end).
      rewrite (IH H). reflexivity.
Qed.

Lemma all_sep_keeps (s : string) :
  s <> "" -> ends_with_sep s = false -> all_sep s = false.
Proof.
  induction s as [|c s IH]; intros Hne H.
  - contradiction.
  - destruct s as [|c' s].
    + simpl in H |- *. rewrite H. reflexivity.
    + assert (Ht : all_sep (String c' s) = false)
        by (apply IH; [discriminate|exact H]).
      remember (String c' s) as t. simpl. rewrite Ht. apply andb_false_r.
Qed.

Lemma all_sep_app (s : string) :
  s <> "" -> ends_with_sep s = false -> all_sep (s ++ "/") = false.
Proof.
  intros Hne H. pose proof (all_sep_keeps s Hne H) as Hs.
  clear Hne H. induction s as [|c s IH]; simpl in *.
  - discriminate Hs.
  - destruct (Ascii.eqb c "/"); simpl in *; [apply IH; exact Hs|reflexivity].
Qed.

(** [os.path.split] undoes the concatenation of a directory, a separator
    and a name. *)
Lemma os_path_split_concat (d name : string) :
  d <> "" -> ends_with_sep d = false -> contains_sep name = false ->
  os_path_split (d ++ "/" ++ name) = (d, name).
Proof.
  intros Hd He Hn. unfold os_path_split.
  rewrite up_to_last_sep_app, after_last_sep_app by assumption.
  rewrite all_sep_app by assumption.
  rewrite rstrip_sep_app, rstrip_sep_id by assumption.
  destruct d; [contradiction|]. reflexivity.
Qed.

Lemma os_path_join_plain (d name : string) :
  d <> "" -> ends_with_sep d = false -> starts_with_sep name = false ->
  os_path_join d name = (d ++ "/" ++ name)%string.
Proof.
  intros Hd He Hn. unfold os_path_join. rewrite Hn, He.
  destruct d; [contradiction|]. reflexivity.
Qed.

Lemma lower_ascii_never_upper (c : ascii) :
  lower_ascii c <> "W"%char /\ lower_ascii c <> "L"%char.
Proof.
  destruct c as [[] [] [] [] [] [] [] []]; vm_compute; split; discriminate.
Qed.

End PyProps.

(** ** Hiding *)

Module HideProps.
Import Alloc Walk Py Hide PyProps.

(** X12: [hide_file] raises in two cases only: [FileNotFoundError] when
    the path does not exist, and [ValueError] when the platform name,
    letter case apart, is neither [windows] nor [linux]; for an existing
    path on either platform it returns [True] or [False] and never
    raises, whatever the renaming, [chattr] and [SetFileAttributesW] do. *)
Theorem hide_file_raises_only (E : env) (os_type filepath : string) :
  (path_exists E filepath = false ->
   snd (hide_file E os_type filepath) = inr FileNotFoundError) /\
  (path_exists E filepath = true ->
   lower os_type = "windows" \/ lower os_type = "linux" ->
   exists b, snd (hide_file E os_type filepath) = inl b) /\
  (path_exists E filepath = true ->
   lower os_type <> "windows" -> lower os_type <> "linux" ->
   snd (hide_file E os_type filepath) = inr ValueError) /\
  (forall e, snd (hide_file E os_type filepath) = inr e ->
             e = FileNotFoundError \/ e = ValueError).
Proof.
  unfold hide_file. split; [|split; [|split]].
  - intros ->. reflexivity.
  - intros -> [H|H]; rewrite H; simpl.
    + eexists. reflexivity.
    + destruct (_hide_file_linux E filepath) as [c b]. eexists. reflexivity.
  - intros -> Hw Hl. simpl.
    apply String.eqb_neq in Hw. apply String.eqb_neq in Hl.
    rewrite Hw, Hl. reflexivity.
  - intros e. destruct (path_exists E filepath); simpl.
    + destruct (String.eqb (lower os_type) "windows").
      * destruct (_hide_file_windows E filepath). discriminate.
      * destruct (String.eqb (lower os_type) "linux").
        -- destruct (_hide_file_linux E filepath). discriminate.
        -- simpl. intros H. injection H as <-. right. reflexivity.
    + intros H. injection H as <-. left. reflexivity.
Qed.

(** An existing file, with the platform name as [platform.system()]
    spells it. *)
Lemma hide_file_raises_only_witness :
  exists b, snd (hide_file (env_plain 0) "Linux" "/mnt/f0.5.dat") = inl b.
Proof.
  refine (proj1 (proj2 (hide_file_raises_only (env_plain 0) "Linux" "/mnt/f0.5.dat"))
                _ _).
  - reflexivity.
  - right. reflexivity.
Defined.

(** X13: [_hide_file_linux] on a file [name] of a directory [d], when
    nothing fails: the file is renamed to [.name] in the same directory,
    then [chattr +i] and [attr] are run on the new path, and the result
    is [True]; run once more, on the new path, it renames nothing. *)
Theorem hide_file_linux_renames_once (E : env) (d name : string) :
  let p := (d ++ "/" ++ name)%string in
  let q := (d ++ "/" ++ "." ++ name)%string in
  d <> "" -> ends_with_sep d = false ->
  contains_sep name = false -> startswith_dot name = false ->
  os_path_abspath E p = p -> os_path_abspath E q = q ->
  rename_raises E p q = false -> chattr E q <> None ->
  _hide_file_linux E p = ([OsRename p q; RunChattr q; RunAttr q], true) /\
  _hide_file_linux E q = ([RunChattr q; RunAttr q], true).
Proof.
  intros p q Hd He Hn Hdot Hp Hq Hr Hc.
  assert (Hsp : os_path_split p = (d, name))
    by (apply os_path_split_concat; assumption).
  assert (Hsq : os_path_split q = (d, ("." ++ name)%string)).
  { apply os_path_split_concat; assumption. }
  assert (Hj : os_path_join d ("." ++ name) = q).
  { apply os_path_join_plain; try assumption. reflexivity. }
  destruct (chattr E q) as [rc|] eqn:Hcq; [|contradiction].
  unfold _hide_file_linux. split.
  - rewrite Hsp, Hdot. simpl negb. cbv iota. rewrite Hj, Hp, Hq, Hr, Hcq.
    reflexivity.
  - rewrite Hsq. simpl startswith_dot. simpl negb. cbv iota. rewrite Hcq.
    reflexivity.
Qed.

(** The file a splinters run has made in [/mnt/a]. *)
Lemma hide_file_linux_renames_once_witness :
  _hide_file_linux (env_plain 1) "/mnt/a/f0.5.dat"
  = ([OsRename "/mnt/a/f0.5.dat" "/mnt/a/.f0.5.dat";
      RunChattr "/mnt/a/.f0.5.dat"; RunAttr "/mnt/a/.f0.5.dat"], true).
Proof.
  refine (proj1 (hide_file_linux_renames_once (env_plain 1) "/mnt/a" "f0.5.dat"
                   _ _ _ _ _ _ _ _)); try reflexivity; discriminate.
Defined.

(** X14: the return code of [chattr] plays no part in what
    [_hide_file_linux] does and returns: where [chattr] can be started,
    two return codes give the same calls and the same result, which is
    [True] also when the flag could not be set, and [False] only when a
    renaming raised. *)
Theorem hide_file_linux_ignores_returncode
        (E : env) (rc1 rc2 : Z) (filepath : string) :
  _hide_file_linux (with_returncode E rc1) filepath
  = _hide_file_linux (with_returncode E rc2) filepath /\
  (snd (_hide_file_linux (with_returncode E rc1) filepath) = false ->
   exists a b,
     In (OsRename a b) (fst (_hide_file_linux (with_returncode E rc1) filepath))
     /\ rename_raises E a b = true).
Proof.
  unfold _hide_file_linux, linux_except, with_returncode.
  cbn [chattr rename_raises os_path_abspath].
  destruct (os_path_split filepath) as [dirname filename].
  destruct (negb (startswith_dot filename)).
  - destruct (rename_raises E (os_path_abspath E filepath)
                (os_path_abspath E (os_path_join dirname ("." ++ filename))))
      eqn:Hr.
    + split; [reflexivity|]. intros _.
      destruct (os_path_split filepath) as [d0 f0].
      destruct (negb (startswith_dot f0)); simpl;
        eexists; eexists; (split; [left; reflexivity|exact Hr]).
    + split; [reflexivity|]. simpl. discriminate.
  - split; [reflexivity|]. simpl. discriminate.
Qed.

(** [chattr] refusing with status 1, as it does without privileges: the
    same as with status 0. *)
Lemma hide_file_linux_ignores_returncode_witness :
  _hide_file_linux (with_returncode (env_plain 0) 1) "/mnt/a/f0.5.dat"
  = _hide_file_linux (with_returncode (env_plain 0) 0) "/mnt/a/f0.5.dat".
Proof.
  exact (proj1 (hide_file_linux_ignores_returncode
                  (env_plain 0) 1 0 "/mnt/a/f0.5.dat")).
Defined.

End HideProps.

(** ** Privileges and the program *)

Module AdminProps.
Import Alloc Py Admin PyProps.

Lemma lower_is_not_capitalised (s : string) :
  lower s <> "Windows" /\ lower s <> "Linux".
Proof.
  destruct s as [|c s]; simpl.
  - split; discriminate.
  - destruct (lower_ascii_never_upper c) as [HW HL].
    split; intros H; injection H as Hc _; [apply HW|apply HL]; exact Hc.
Qed.

(** X15: [is_admin] called without a platform name raises [ValueError]
    on every platform, since it compares the lower-cased name of the
    platform with [Windows] and [Linux]; called with a name it answers
    only for exactly these two spellings. *)
Theorem is_admin_wants_capitalised_names (E : env) :
  is_admin E None = inr ValueError /\
  (forall t b, is_admin E (Some t) = inl b -> t = "Windows" \/ t = "Linux") /\
  (forall t, lower t = t -> is_admin E (Some t) = inr ValueError).
Proof.
  assert (Hlow : forall s, is_admin E (Some (lower s)) = inr ValueError).
  { intros s. unfold is_admin.
    destruct (lower_is_not_capitalised s) as [HW HL].
    apply String.eqb_neq in HW. apply String.eqb_neq in HL.
    rewrite HW, HL. reflexivity. }
  split; [|split].
  - apply (Hlow (platform_system E)).
  - intros t b. unfold is_admin.
    destruct (String.eqb t "Windows") eqn:HW.
    + apply String.eqb_eq in HW. left. exact HW.
    + destruct (String.eqb t "Linux") eqn:HL.
      * apply String.eqb_eq in HL. right. exact HL.
      * discriminate.
  - intros t Ht. rewrite <- Ht. apply Hlow.
Qed.

(** The name [hide_file] accepts, [linux], is refused. *)
Lemma is_admin_wants_capitalised_names_witness :
  is_admin {| platform_system := "Linux"; IsUserAnAdmin := None;
              system_config_opens := false; geteuid := 0 |} (Some "linux")
  = inr ValueError.
Proof.
  apply (proj2 (proj2 (is_admin_wants_capitalised_names _))). reflexivity.
Defined.

End AdminProps.

Module MainProps.
Import Alloc Py Main.

Section Budget.
Variable int_of_float_times : string -> Z -> Z + failure.
Variable int_of_str : string -> Z + failure.

Local Abbreviation budget' := (budget int_of_float_times int_of_str).

Lemma budget_at_most_free (args_size : string) (free size0 : Z) :
  budget' args_size free = inl size0 -> size0 <= free.
Proof.
  unfold budget. destruct (String.eqb args_size "full").
  - intros H. injection H as <-. lia.
  - destruct (convert_to_bytes _ _ args_size) as [set_size|f]; [|discriminate].
    destruct (set_size <=? free) eqn:Hle; intros H; injection H as <-.
    + apply Z.leb_le in Hle. exact Hle.
    + lia.
Qed.
End Budget.

(** X16: the budget [__main__] settles on never exceeds the free space
    of the volume; it is the free space for [full] and the size asked for
    when that fits; it is not negative when at least 1 MiB is free and
    the size asked for is not negative; but when the size asked for
    exceeds a free space of less than 1 MiB, the budget is negative. *)
Theorem budget_within_free_space
        (int_of_float_times : string -> Z -> Z + failure)
        (int_of_str : string -> Z + failure)
        (args_size : string) (free : Z) :
  let budget' := budget int_of_float_times int_of_str in
  let convert' := convert_to_bytes int_of_float_times int_of_str in
  (forall size0, budget' args_size free = inl size0 -> size0 <= free) /\
  (budget' "full" free = inl free) /\
  (forall n, args_size <> "full" -> convert' args_size = inl n -> n <= free ->
             budget' args_size free = inl n) /\
  (forall n size0, convert' args_size = inl n -> 0 <= n -> 1024 * 1024 <= free ->
                   budget' args_size free = inl size0 -> 0 <= size0) /\
  (forall n, args_size <> "full" -> convert' args_size = inl n ->
             free < n -> free < 1024 * 1024 ->
             exists size0, budget' args_size free = inl size0 /\ size0 < 0).
Proof.
  intros budget' convert'. subst budget' convert'.
  split; [|split; [|split; [|split]]].
  - intros size0. apply budget_at_most_free.
  - reflexivity.
  - intros n Hf Hc Hle. unfold budget.
    apply String.eqb_neq in Hf. rewrite Hf, Hc.
    apply Z.leb_le in Hle. rewrite Hle. reflexivity.
  - intros n size0 Hc Hn Hfree. unfold budget.
    destruct (String.eqb args_size "full").
    + intros H. injection H as <-. lia.
    + rewrite Hc. destruct (n <=? free); intros H; injection H as <-; lia.
  - intros n Hf Hc Hlt Hsmall. unfold budget.
    apply String.eqb_neq in Hf. rewrite Hf, Hc.
    assert (Hle : (n <=? free) = false) by (apply Z.leb_gt; exact Hlt).
    rewrite Hle. eexists. split; [reflexivity|lia].
Qed.

(** 2000 bytes asked of a volume with 1000 bytes free. *)
Lemma budget_within_free_space_witness :
  exists size0,
    budget (fun _ _ => inr IndexError) (fun _ => inl 2000) "2000" 1000
    = inl size0 /\ size0 < 0.
Proof.
  refine (proj2 (proj2 (proj2 (proj2
            (budget_within_free_space (fun _ _ => inr IndexError)
                                      (fun _ => inl 2000) "2000" 1000))))
            2000 _ _ _ _).
  - discriminate.
  - reflexivity.
  - lia.
  - lia.
Defined.

(** X17: [convert_to_bytes] reads the unit letter without regard to its
    case, and raises [IndexError] on the empty string: a size written
    with [k], [m], [g] or [t] is the one written with [K], [M], [G] or
    [T]; any other last character sends the whole string to [int]. *)
Theorem convert_to_bytes_unit_letter
        (int_of_float_times : string -> Z -> Z + failure)
        (int_of_str : string -> Z + failure)
        (digits : string) (c : ascii) :
  let convert' := convert_to_bytes int_of_float_times int_of_str in
  convert' "" = inr IndexError /\
  (forall u, units (upper_ascii c) = Some u ->
             convert' (digits ++ String c "")%string
             = int_of_float_times digits u /\
             convert' (digits ++ String (upper_ascii c) "")%string
             = int_of_float_times digits u) /\
  (units (upper_ascii c) = None ->
   convert' (digits ++ String c "")%string = int_of_str (digits ++ String c "")%string).
Proof.
  intros convert'. subst convert'. unfold convert_to_bytes.
  assert (Hl : forall d x, last_char (d ++ String x "")%string = Some x).
  { induction d as [|y d IH]; intros x; simpl.
    - reflexivity.
    - rewrite IH. destruct (d ++ String x "")%string eqn:Hd; [|reflexivity].
      destruct d; discriminate Hd. }
  assert (Ha : forall d x, all_but_last (d ++ String x "")%string = d).
  { induction d as [|y d IH]; intros x; simpl.
    - reflexivity.
    - rewrite IH. destruct (d ++ String x "")%string eqn:Hd; [|reflexivity].
      destruct d; discriminate Hd. }
  assert (Hup : forall x u, units (upper_ascii x) = Some u ->
                            upper_ascii (upper_ascii x) = upper_ascii x).
  { intros x u. destruct x as [[] [] [] [] [] [] [] []]; vm_compute;
      try discriminate; reflexivity. }
  split; [reflexivity|]. split.
  - intros u Hu. rewrite !Hl, !Ha, (Hup c u Hu), Hu. split; reflexivity.
  - intros Hu. rewrite Hl, Hu. reflexivity.
Qed.

(** [10g] is read as [10G]. *)
Lemma convert_to_bytes_unit_letter_witness :
  convert_to_bytes (fun s u => inl (10 * u)) (fun _ => inr IndexError) "10g"
  = inl (10 * 1024 ^ 3).
Proof.
  refine (proj1 (proj1 (proj2 (convert_to_bytes_unit_letter
                                 (fun s u => inl (10 * u))
                                 (fun _ => inr IndexError) "10" "g"))
                       (1024 ^ 3) _)).
  reflexivity.
Defined.

(** X18: [__main__] calls [run] only on Windows and Linux, then with a
    budget within the free space and with the extending function
    exactly in the append modes; asked to hide without the rights of an
    administrator it exits with status 1 before any allocation; on any
    other platform it does nothing when not asked to hide, and stops on
    the [ValueError] of [is_admin] when asked to. *)
Theorem main_outcomes
        (int_of_float_times : string -> Z -> Z + failure)
        (int_of_str : string -> Z + failure) (E : env) (a : args) :
  let main' := main int_of_float_times int_of_str E in
  let os := Admin.platform_system (admin E) in
  (forall os_type is_append p m size0 h,
      main' a = Ran os_type is_append p m size0 h ->
      (os_type = "Windows" \/ os_type = "Linux") /\ os_type = os /\
      p = path a /\ m = mode a /\ h = hide a /\
      is_append = (String.eqb m "append" || String.eqb m "a") /\
      exists free, free_space E (path a) = inl free /\ size0 <= free) /\
  (forall size0 free,
      hide a = true ->
      free_space E (path a) = inl free ->
      budget int_of_float_times int_of_str (size a) free = inl size0 ->
      Admin.is_admin (admin E) (Some os) = inl false ->
      main' a = Exited (Some 1)) /\
  (forall size0 free,
      os <> "Windows" -> os <> "Linux" ->
      free_space E (path a) = inl free ->
      budget int_of_float_times int_of_str (size a) free = inl size0 ->
      main' a = if hide a then Crashed (Raised ValueError) else Idle).
Proof.
  intros main' os. subst main' os. unfold main.
  split; [|split].
  - intros os_type is_append p m size0 h.
    destruct (free_space E (path a)) as [free|f]; [|discriminate].
    destruct (budget _ _ (size a) free) as [sz|f] eqn:Hb; [|discriminate].
    assert (Hd : dispatch (Admin.platform_system (admin E)) a sz
                 = Ran os_type is_append p m size0 h ->
                 (os_type = "Windows" \/ os_type = "Linux") /\
                 os_type = Admin.platform_system (admin E) /\
                 p = path a /\ m = mode a /\ h = hide a /\
                 is_append = (String.eqb m "append" || String.eqb m "a") /\
                 exists free0, @inl Z failure free = inl free0 /\ size0 <= free0).
    { unfold dispatch.
      destruct (String.eqb _ "Windows" || String.eqb _ "Linux") eqn:Ho;
        [|discriminate].
      intros H. injection H as <- <- <- <- <- <-.
      split.
      { apply orb_true_iff in Ho. destruct Ho as [Ho|Ho];
          apply String.eqb_eq in Ho; auto. }
      repeat (split; [reflexivity|]).
      exists free. split; [reflexivity|].
      apply (budget_at_most_free _ _ _ _ _ Hb). }
    destruct (hide a); [|exact Hd].
    destruct (Admin.is_admin _ _) as [[|]|e]; try discriminate.
    destruct (String.eqb (mode a) "a" || String.eqb (mode a) "append");
      [|exact Hd].
    destruct (String.eqb (input E) "Y" || String.eqb (input E) "y");
      [exact Hd|discriminate].
  - intros size0 free Hh Hf Hb Ha. rewrite Hf, Hb, Hh, Ha. reflexivity.
  - intros size0 free HW HL Hf Hb. rewrite Hf, Hb.
    apply String.eqb_neq in HW. apply String.eqb_neq in HL.
    unfold dispatch, Admin.is_admin. rewrite HW, HL. simpl.
    destruct (hide a); reflexivity.
Qed.

(** A user who is not root asks to hide one file of 10 bytes. *)
Lemma main_outcomes_witness :
  main (fun _ _ => inr IndexError) (fun _ => inl 10)
       {| admin := {| Admin.platform_system := "Linux";
                      Admin.IsUserAnAdmin := None;
                      Admin.system_config_opens := false;
                      Admin.geteuid := 1000 |};
          disk_usage_free := fun _ => inl 4096;
          mkdir_raises := fun _ => None;
          disk_usage_free_after_mkdir := fun _ => inl 4096;
          input := "" |}
       {| path := "./test"; size := "10"; mode := "onefile"; hide := true |}
  = Exited (Some 1).
Proof.
  refine (proj1 (proj2 (main_outcomes _ _ _ _)) 10 4096 _ _ _ _);
    reflexivity.
Defined.

End MainProps.
